(** * Caching page fetcher with request tracking (0x02-redis_basic/web.py)

    A shallow embedding of [web.py]: the cache-key derivation
    [sanitize_url], the decorator [track_get_page] with its [wrapper], and
    the decorated [get_page].  The collaborators the module calls into are
    modelled next to it: Python text and its UTF-8 codec, [hashlib.md5],
    and the Redis commands INCRBY, GET and SETEX together with the
    redis-py client methods [incr], [get] and [setex]. *)

From Stdlib Require Import NArith ZArith Lia List Bool Ascii String Decimal DecimalZ.
From stdpp Require Import base option list gmap.

Local Open Scope N_scope.

(** ** Python values *)

Module Py.

(** A [bytes] object: a sequence of octets, each written as its value. *)
Definition bytes := list N.

(** A [str] object: a sequence of Unicode code points.  Python allows every
    code point up to U+10FFFF in a [str], the surrogates U+D800..U+DFFF
    included. *)
Definition str := list N.

(** Exceptions that reach the caller of the functions of [web.py]. *)
Inductive redis_error :=
| WrongType
| NotAnInteger
| IncrOverflow
| InvalidExpire.

Inductive exn :=
| UnicodeEncodeError
| UnicodeDecodeError
| ResponseError (e : redis_error)
| OtherError (name : str).

Inductive result (A : Type) :=
| Ok (a : A)
| Raise (e : exn).
Arguments Ok {A} a.
Arguments Raise {A} e.

Definition is_surrogate (c : N) : bool := (0xD800 <=? c) && (c <=? 0xDFFF).

(** Unicode scalar values: the code points that are no surrogates. *)
Definition scalar (c : N) : bool := (c <? 0x110000) && negb (is_surrogate c).

(** [chr(c).encode("utf-8")] under the default [errors="strict"]:
    surrogates are refused. *)
Definition utf8_encode_cp (c : N) : option bytes :=
  if c <? 0x80 then Some [c]
  else if c <? 0x800 then Some [0xC0 + c / 64; 0x80 + c mod 64]
  else if c <? 0x10000 then
    if is_surrogate c then None
    else Some [0xE0 + c / 4096; 0x80 + (c / 64) mod 64; 0x80 + c mod 64]
  else if c <? 0x110000 then
    Some [0xF0 + c / 262144; 0x80 + (c / 4096) mod 64;
          0x80 + (c / 64) mod 64; 0x80 + c mod 64]
  else None.

(** [s.encode("utf-8")]; [None] stands for [UnicodeEncodeError]. *)
Fixpoint utf8_encode (s : str) : option bytes :=
  match s with
  | [] => Some []
  | c :: r =>
    match utf8_encode_cp c, utf8_encode r with
    | Some x, Some y => Some (x ++ y)
    | _, _ => None
    end
  end.

Definition is_cont (b : N) : bool := (0x80 <=? b) && (b <? 0xC0).

(** [b.decode("utf-8")] under [errors="strict"]: truncated sequences, stray
    continuation bytes, overlong forms, encoded surrogates and values past
    U+10FFFF are refused.  [None] stands for [UnicodeDecodeError]. *)
Fixpoint utf8_decode (b : bytes) : option str :=
  match b with
  | [] => Some []
  | b0 :: r0 =>
    if b0 <? 0x80 then cons b0 <$> utf8_decode r0
    else if b0 <? 0xC2 then None
    else if b0 <? 0xE0 then
      match r0 with
      | b1 :: r1 =>
        if is_cont b1
        then cons ((b0 - 0xC0) * 64 + (b1 - 0x80)) <$> utf8_decode r1
        else None
      | _ => None
      end
    else if b0 <? 0xF0 then
      match r0 with
      | b1 :: b2 :: r2 =>
        let c := (b0 - 0xE0) * 4096 + (b1 - 0x80) * 64 + (b2 - 0x80) in
        if is_cont b1 && is_cont b2 && (0x800 <=? c) && negb (is_surrogate c)
        then cons c <$> utf8_decode r2
        else None
      | _ => None
      end
    else if b0 <? 0xF5 then
      match r0 with
      | b1 :: b2 :: b3 :: r3 =>
        let c := (b0 - 0xF0) * 262144 + (b1 - 0x80) * 4096
                 + (b2 - 0x80) * 64 + (b3 - 0x80) in
        if is_cont b1 && is_cont b2 && is_cont b3
           && (0x10000 <=? c) && (c <? 0x110000)
        then cons c <$> utf8_decode r3
        else None
      | _ => None
      end
    else None
  end.

(** An ASCII literal, as a [str] or, with the same numbers, as [bytes]. *)
Definition lit (s : String.string) : list N :=
  map Ascii.N_of_ascii (String.list_ascii_of_string s).
Arguments lit s%_string.

End Py.

(** ** hashlib.md5 (RFC 1321) *)

Module MD5.

Definition word := N.
Definition wmod : N := 2 ^ 32.

Definition add32 (a b : word) : word := (a + b) mod wmod.
Definition not32 (a : word) : word := N.lxor (a mod wmod) 0xFFFFFFFF.
Definition rotl32 (x : word) (s : N) : word :=
  N.lor (N.shiftl x s mod wmod) (N.shiftr x (32 - s)).

Definition F (b c d : word) := N.lor (N.land b c) (N.land (not32 b) d).
Definition G (b c d : word) := N.lor (N.land b d) (N.land c (not32 d)).
Definition H (b c d : word) := N.lxor b (N.lxor c d).
Definition I (b c d : word) := N.lxor c (N.lor b (not32 d)).

Definition K : list word :=
  [3614090360; 3905402710; 606105819; 3250441966; 4118548399; 1200080426;
   2821735955; 4249261313; 1770035416; 2336552879; 4294925233; 2304563134;
   1804603682; 4254626195; 2792965006; 1236535329; 4129170786; 3225465664;
   643717713; 3921069994; 3593408605; 38016083; 3634488961; 3889429448;
   568446438; 3275163606; 4107603335; 1163531501; 2850285829; 4243563512;
   1735328473; 2368359562; 4294588738; 2272392833; 1839030562; 4259657740;
   2763975236; 1272893353; 4139469664; 3200236656; 681279174; 3936430074;
   3572445317; 76029189; 3654602809; 3873151461; 530742520; 3299628645;
   4096336452; 1126891415; 2878612391; 4237533241; 1700485571; 2399980690;
   4293915773; 2240044497; 1873313359; 4264355552; 2734768916; 1309151649;
   4149444226; 3174756917; 718787259; 3951481745].

Definition S : list N :=
  [7; 12; 17; 22; 7; 12; 17; 22; 7; 12; 17; 22; 7; 12; 17; 22;
   5; 9; 14; 20; 5; 9; 14; 20; 5; 9; 14; 20; 5; 9; 14; 20;
   4; 11; 16; 23; 4; 11; 16; 23; 4; 11; 16; 23; 4; 11; 16; 23;
   6; 10; 15; 21; 6; 10; 15; 21; 6; 10; 15; 21; 6; 10; 15; 21].

Record state := State { sa : word; sb : word; sc : word; sd : word }.

Definition init : state :=
  State 0x67452301 0xefcdab89 0x98badcfe 0x10325476.

(** Little-endian bytes of a number, [n] of them. *)
Fixpoint le_bytes (n : nat) (w : N) : Py.bytes :=
  match n with
  | O => []
  | Datatypes.S n' => w mod 256 :: le_bytes n' (w / 256)
  end.

Fixpoint le_word (b : Py.bytes) : N :=
  match b with
  | [] => 0
  | x :: r => x + 256 * le_word r
  end.

(** The sixteen 32-bit words of a 64-byte block. *)
Fixpoint words (n : nat) (b : Py.bytes) : list word :=
  match n with
  | O => []
  | Datatypes.S n' => le_word (take 4 b) :: words n' (drop 4 b)
  end.

Definition round (M : list word) (st : state) (i : nat) : state :=
  let '(f, g) :=
    if (i <? 16)%nat then (F (sb st) (sc st) (sd st), i)
    else if (i <? 32)%nat then (G (sb st) (sc st) (sd st), (5 * i + 1) mod 16)%nat
    else if (i <? 48)%nat then (H (sb st) (sc st) (sd st), (3 * i + 5) mod 16)%nat
    else (I (sb st) (sc st) (sd st), (7 * i) mod 16)%nat in
  let f' := add32 (add32 (add32 f (sa st)) (nth i K 0)) (nth g M 0) in
  State (sd st) (add32 (sb st) (rotl32 f' (nth i S 0))) (sb st) (sc st).

Definition compress (st : state) (block : Py.bytes) : state :=
  let r := fold_left (round (words 16 block)) (seq 0 64) st in
  State (add32 (sa st) (sa r)) (add32 (sb st) (sb r))
        (add32 (sc st) (sc r)) (add32 (sd st) (sd r)).

Definition pad (msg : Py.bytes) : Py.bytes :=
  let len := length msg in
  msg ++ [0x80] ++ repeat 0 ((119 - len mod 64) mod 64)%nat
      ++ le_bytes 8 ((8 * N.of_nat len) mod 2 ^ 64).

Fixpoint blocks (n : nat) (st : state) (b : Py.bytes) : state :=
  match n with
  | O => st
  | Datatypes.S n' => blocks n' (compress st (take 64 b)) (drop 64 b)
  end.

(** [hashlib.md5(msg).digest()] *)
Definition digest (msg : Py.bytes) : Py.bytes :=
  let p := pad msg in
  let st := blocks (length p / 64)%nat init p in
  le_bytes 4 (sa st) ++ le_bytes 4 (sb st) ++ le_bytes 4 (sc st)
    ++ le_bytes 4 (sd st).

Definition hex_digit (n : N) : N := if n <? 10 then 48 + n else 87 + n.

Definition hex_byte (b : N) : Py.str := [hex_digit (b / 16); hex_digit (b mod 16)].

(** The characters [0-9a-f]. *)
Definition is_hex (c : N) : bool :=
  (48 <=? c) && (c <=? 57) || (97 <=? c) && (c <=? 102).

(** [hashlib.md5(msg).hexdigest()] *)
Definition hexdigest (msg : Py.bytes) : Py.str :=
  flat_map hex_byte (digest msg).

End MD5.

(** ** The Redis server: one keyspace of entries with an optional time to live *)

Module Redis.
Import Py.

Local Open Scope Z_scope.

Definition INT64_MIN : Z := - 2 ^ 63.
Definition INT64_MAX : Z := 2 ^ 63 - 1.

(** Decimal digits of a number, as the server prints and reads them. *)
Fixpoint uint_bytes (u : Decimal.uint) : bytes :=
  match u with
  | Decimal.Nil => []
  | Decimal.D0 r => 48%N :: uint_bytes r
  | Decimal.D1 r => 49%N :: uint_bytes r
  | Decimal.D2 r => 50%N :: uint_bytes r
  | Decimal.D3 r => 51%N :: uint_bytes r
  | Decimal.D4 r => 52%N :: uint_bytes r
  | Decimal.D5 r => 53%N :: uint_bytes r
  | Decimal.D6 r => 54%N :: uint_bytes r
  | Decimal.D7 r => 55%N :: uint_bytes r
  | Decimal.D8 r => 56%N :: uint_bytes r
  | Decimal.D9 r => 57%N :: uint_bytes r
  end.

Definition digit (c : N) : option (Decimal.uint -> Decimal.uint) :=
  if ((48 <=? c) && (c <=? 57))%N
  then nth_error [Decimal.D0; Decimal.D1; Decimal.D2; Decimal.D3; Decimal.D4;
                  Decimal.D5; Decimal.D6; Decimal.D7; Decimal.D8; Decimal.D9]
                 (N.to_nat (c - 48))
  else None.

Fixpoint bytes_uint (b : bytes) : option Decimal.uint :=
  match b with
  | [] => Some Decimal.Nil
  | c :: r =>
    match digit c, bytes_uint r with
    | Some d, Some u => Some (d u)
    | _, _ => None
    end
  end.

(** The decimal text of an integer: what INCRBY writes back. *)
Definition int_bytes (z : Z) : bytes :=
  match Z.to_int z with
  | Decimal.Pos u => uint_bytes u
  | Decimal.Neg u => 45%N :: uint_bytes u
  end.

(** The server's reading of a stored string as a 64-bit signed integer: only
    the canonical decimal text of a number in range is accepted (no sign
    [+], no leading zeros, no spaces, no [-0], not the empty string). *)
Definition parse_int (b : bytes) : option Z :=
  let r :=
    match b with
    | c :: t => if (c =? 45)%N then Z.of_int ∘ Decimal.Neg <$> bytes_uint t
                else Z.of_int ∘ Decimal.Pos <$> bytes_uint b
    | [] => None
    end in
  match r with
  | Some z =>
    if bool_decide (int_bytes z = b) && (INT64_MIN <=? z) && (z <=? INT64_MAX)
    then Some z else None
  | None => None
  end.

(** A key holds a string or a value of another type (list, hash, set, ...). *)
Inductive value :=
| String (s : bytes)
| NonString.

(** [ttl]: seconds left to live, [None] for a key that does not expire. *)
Record entry := Entry { val : value; ttl : option Z }.

Abbreviation db := (gmap (list N) entry).

(** The integer that INCRBY finds under a key: 0 for a key that is not
    there, none for a key that holds something else than the decimal text of
    a 64-bit integer. *)
Definition reading (d : db) (k : bytes) : option Z :=
  match d !! k with
  | None => Some 0
  | Some e =>
    match val e with
    | String s => parse_int s
    | NonString => None
    end
  end.

(** INCRBY key amount *)
Definition INCRBY (k : bytes) (amount : Z) (d : db) : redis_error + Z * db :=
  let add (old : Z) (t : option Z) :=
    let n := old + amount in
    if (INT64_MIN <=? n) && (n <=? INT64_MAX)
    then inr (n, <[k := Entry (String (int_bytes n)) t]> d)
    else inl IncrOverflow in
  match d !! k with
  | None => add 0 None
  | Some e =>
    match val e with
    | String s =>
      match parse_int s with
      | Some old => add old (ttl e)
      | None => inl NotAnInteger
      end
    | NonString => inl WrongType
    end
  end.

(** GET key *)
Definition GET (k : bytes) (d : db) : redis_error + option bytes :=
  match d !! k with
  | None => inr None
  | Some e =>
    match val e with
    | String s => inr (Some s)
    | NonString => inl WrongType
    end
  end.

(** SETEX key seconds value *)
Definition SETEX (k : bytes) (seconds : Z) (v : bytes) (d : db) : redis_error + db :=
  if 0 <? seconds then inr (<[k := Entry (String v) (Some seconds)]> d)
  else inl InvalidExpire.

(** The passing of [dt] seconds: keys with a time to live age, and a key is
    gone once more time has passed than it had left (the server drops a key
    when the clock is past its expiry time). *)
Definition age (dt : Z) (e : entry) : option entry :=
  match ttl e with
  | None => Some e
  | Some t => if dt <=? t then Some (Entry (val e) (Some (t - dt))) else None
  end.

Definition elapse (dt : Z) (d : db) : db := omap (age dt) d.

End Redis.

(** ** web.py *)

Module Web.
Import Py Redis.

(** Constant for cache expiration time (10 seconds) *)
Definition CACHE_EXPIRATION : Z := 10.

(** Generates a Redis-friendly key by hashing the URL:
    [hashlib.md5(url.encode()).hexdigest()]. *)
Definition sanitize_url (url : str) : result str :=
  match utf8_encode url with
  | Some b => Ok (MD5.hexdigest b)
  | None => Raise UnicodeEncodeError
  end.

(** The f-string [f"count:{url}"]. *)
Definition count_name (url : str) : str := lit "count:" ++ url.

Section Wrapper.
Context {Net : Type}.

(** What a call of the module can change: the contents [store] of the Redis
    server behind the global [redis_client], the outside world [net] that
    the decorated function talks to, and, as a record of what happened, the
    arguments [fetched] with which the decorated function has been called
    so far.  The server is taken to be reachable, and the decorated function
    to leave the server alone. *)
Record world := World {
  store : db;
  net : Net;
  fetched : list str
}.

(** A Python callable taking a URL and returning text or raising. *)
Definition callable := str -> Net -> result str * Net.

(** Computations that read and change the world and may raise. *)
Definition M (A : Type) := world -> result A * world.

Definition ret {A} (a : A) : M A := fun w => (Ok a, w).
Definition raise {A} (e : exn) : M A := fun w => (Raise e, w).
Definition bind {A B} (m : M A) (k : A -> M B) : M B :=
  fun w => match m w with
           | (Ok a, w') => k a w'
           | (Raise e, w') => (Raise e, w')
           end.
Definition lift {A} (r : result A) : M A := fun w => (r, w).

Notation "x <- m ;; k" := (bind m (fun x => k))
  (at level 100, m at next level, right associativity).

(** redis-py encodes a [str] argument of a command as UTF-8, strictly,
    before anything is sent. *)
Definition encode_arg (s : str) : M bytes :=
  match utf8_encode s with
  | Some b => ret b
  | None => raise UnicodeEncodeError
  end.

Definition command {A} (c : db -> redis_error + A * db) : M A :=
  fun w => match c (store w) with
           | inr (a, d) => (Ok a, World d (net w) (fetched w))
           | inl e => (Raise (ResponseError e), w)
           end.

(** [redis_client.incr(name)] *)
Definition redis_incr (name : str) : M Z :=
  k <- encode_arg name ;;
  command (INCRBY k 1).

(** [redis_client.get(name)] *)
Definition redis_get (name : str) : M (option bytes) :=
  k <- encode_arg name ;;
  command (fun d => match GET k d with inr v => inr (v, d) | inl e => inl e end).

(** [redis_client.setex(name, time, value)] *)
Definition redis_setex (name : str) (time : Z) (value : str) : M unit :=
  k <- encode_arg name ;;
  v <- encode_arg value ;;
  command (fun d => match SETEX k time v d with inr d' => inr (tt, d') | inl e => inl e end).

(** [cached_page.decode("utf-8")] *)
Definition decode (b : bytes) : M str :=
  match utf8_decode b with
  | Some s => ret s
  | None => raise UnicodeDecodeError
  end.

(** The call [fn(url)] of the decorated function. *)
Definition call (fn : callable) (url : str) : M str :=
  fun w => let (r, n) := fn url (net w) in
           (r, World (store w) n (fetched w ++ [url])).

(** The wrapper that [track_get_page] builds around [fn]. *)
Definition wrapper (fn : callable) (url : str) : M str :=
  (* Increment the URL access count *)
  _ <- redis_incr (count_name url) ;;
  (* Sanitize URL for cache key *)
  cache_key <- lift (sanitize_url url) ;;
  (* Check if the page is already cached: [if cached_page:] takes the
     truth value of the reply, which is false for [None] and for the empty
     [bytes] object and true for every other [bytes] object *)
  cached_page <- redis_get cache_key ;;
  match cached_page with
  | Some ((_ :: _) as page) => decode page
  | _ =>
    (* If not cached, fetch from the URL and cache it with an expiration *)
    response <- call fn url ;;
    _ <- redis_setex cache_key CACHE_EXPIRATION response ;;
    ret response
  end.

(** [dt] seconds pass between two calls. *)
Definition sleep (dt : Z) (w : world) : world :=
  World (elapse dt (store w)) (net w) (fetched w).

(** Decorator to cache and track the get_page requests *)
Definition track_get_page (fn : callable) : str -> M str := wrapper fn.

(** [get_page], the decorated function; [requests_get_text] stands for its
    body [requests.get(url).text]. *)
Definition get_page (requests_get_text : callable) : str -> M str :=
  track_get_page requests_get_text.

End Wrapper.

(** The keys, as the server receives them, under which a URL is counted and
    under which its page is cached. *)
Definition count_key (url : str) : option bytes := utf8_encode (count_name url).

Definition cache_key (url : str) : option bytes :=
  match sanitize_url url with
  | Ok k => utf8_encode k
  | Raise _ => None
  end.

(** The counter of a URL as INCRBY reads it: a key that is not there counts
    as 0; there is no reading when the URL cannot be encoded or the key
    holds something else than the decimal text of a 64-bit integer. *)
Definition counter (d : db) (url : str) : option Z :=
  match count_key url with
  | Some k =>
    match d !! k with
    | None => Some 0%Z
    | Some e =>
      match val e with
      | String s => parse_int s
      | NonString => None
      end
    end
  | None => None
  end.

(** A stand-in for the decorated function: it hands out prepared replies in
    turn, whatever the URL, and raises when none is left. *)
Definition canned : @callable (list str) :=
  fun _ replies =>
    match replies with
    | r :: rest => (Ok r, rest)
    | [] => (Raise (OtherError (lit "ConnectionError")), [])
    end.

(** Calls made one after the other for the URLs of [urls]: what each of them
    returns or raises is dropped, the world goes from call to call. *)
Definition session {Net} (fn : @callable Net) (urls : list str) (w : world)
  : world :=
  fold_left (fun w' u => snd (wrapper fn u w')) urls w.

End Web.

(** ** A scenario: one URL, a server that is empty or holds one cached page *)

Module Scenario.
Import Py Redis Web.

Definition url : str := lit "http://example.com".

(** [sanitize_url] of that URL, as the server receives it. *)
Definition key : bytes := lit "a9b9f04336ce0181a08e774e01113b31".

(** An empty server; the decorated function has not been called yet. *)
Definition fresh (replies : list str) : @world (list str) :=
  World ∅ replies [].

(** A server that holds the string [v] with time to live [t] under [key]. *)
Definition holding (v : bytes) (t : option Z) (replies : list str)
  : @world (list str) :=
  World {[ key := Entry (String v) t ]} replies [].

End Scenario.

(** ** Proof tools *)

(** [lia] is to know division and remainder by a constant. *)
#[local] Ltac Zify.zify_post_hook ::= Z.to_euclidean_division_equations.

(** Comparisons in hypotheses, from booleans to propositions. *)
Ltac bool_props :=
  repeat match goal with
  | H : (_ && _) = true |- _ => apply andb_true_iff in H; destruct H
  | H : (_ && _) = false |- _ => apply andb_false_iff in H; destruct H
  | H : (_ || _) = true |- _ => apply orb_true_iff in H; destruct H
  | H : (_ || _) = false |- _ => apply orb_false_iff in H; destruct H
  | H : negb _ = true |- _ => apply negb_true_iff in H
  | H : negb _ = false |- _ => apply negb_false_iff in H
  | H : (_ <? _) = true |- _ => apply N.ltb_lt in H
  | H : (_ <? _) = false |- _ => apply N.ltb_ge in H
  | H : (_ <=? _) = true |- _ => apply N.leb_le in H
  | H : (_ <=? _) = false |- _ => apply N.leb_gt in H
  end.

(** Case analysis on every test of the goal. *)
Ltac split_ifs :=
  repeat match goal with
  | |- context [if ?b then _ else _] => destruct b eqn:?
  end.

(** * Properties *)

Import Py Redis Web.

(** ** Test vectors *)

Example md5_empty : MD5.hexdigest [] = Py.lit "d41d8cd98f00b204e9800998ecf8427e".
Proof. vm_compute. reflexivity. Qed.

Example md5_abc : MD5.hexdigest (Py.lit "abc") = Py.lit "900150983cd24fb0d6963f7d28e17f72".
Proof. vm_compute. reflexivity. Qed.

Example md5_a55 : MD5.hexdigest (repeat 97 55) = Py.lit "ef1772b6dff9a122358552954ad0df65".
Proof. vm_compute. reflexivity. Qed.

Example md5_a56 : MD5.hexdigest (repeat 97 56) = Py.lit "3b0c8ac703f828b04c6c197006d17218".
Proof. vm_compute. reflexivity. Qed.

Example md5_a64 : MD5.hexdigest (repeat 97 64) = Py.lit "014842d480b571495a4a0363793f7367".
Proof. vm_compute. reflexivity. Qed.

Example md5_a119 : MD5.hexdigest (repeat 97 119) = Py.lit "8a7bd0732ed6a28ce75f6dabc90e1613".
Proof. vm_compute. reflexivity. Qed.

Example utf8_sample :
  Py.utf8_encode [104; 233; 8364; 128512]
  = Some [104; 195; 169; 226; 130; 172; 240; 159; 152; 128].
Proof. vm_compute. reflexivity. Qed.

(** ** The UTF-8 codec *)

Lemma utf8_decode_cons b0 r0 :
  utf8_decode (b0 :: r0) =
    if b0 <? 0x80 then cons b0 <$> utf8_decode r0
    else if b0 <? 0xC2 then None
    else if b0 <? 0xE0 then
      match r0 with
      | b1 :: r1 =>
        if is_cont b1
        then cons ((b0 - 0xC0) * 64 + (b1 - 0x80)) <$> utf8_decode r1
        else None
      | _ => None
      end
    else if b0 <? 0xF0 then
      match r0 with
      | b1 :: b2 :: r2 =>
        let c := (b0 - 0xE0) * 4096 + (b1 - 0x80) * 64 + (b2 - 0x80) in
        if is_cont b1 && is_cont b2 && (0x800 <=? c) && negb (is_surrogate c)
        then cons c <$> utf8_decode r2
        else None
      | _ => None
      end
    else if b0 <? 0xF5 then
      match r0 with
      | b1 :: b2 :: b3 :: r3 =>
        let c := (b0 - 0xF0) * 262144 + (b1 - 0x80) * 4096
                 + (b2 - 0x80) * 64 + (b3 - 0x80) in
        if is_cont b1 && is_cont b2 && is_cont b3
           && (0x10000 <=? c) && (c <? 0x110000)
        then cons c <$> utf8_decode r3
        else None
      | _ => None
      end
    else None.
Proof. reflexivity. Qed.

(** Decoding reads back one encoded code point and goes on with the rest. *)
Lemma utf8_decode_cp c x r :
  utf8_encode_cp c = Some x -> utf8_decode (x ++ r) = cons c <$> utf8_decode r.
Proof.
  unfold utf8_encode_cp, is_surrogate. intros H.
  repeat match type of H with
  | (if ?b then _ else _) = _ => destruct b eqn:?
  end; try discriminate; injection H as <-; cbn [app];
  rewrite utf8_decode_cons; cbv beta iota zeta;
  unfold is_cont, is_surrogate;
  split_ifs; bool_props; try lia; do 2 f_equal; lia.
Qed.

(** Strict decoding undoes strict encoding. *)
Lemma utf8_decode_encode s : forall b,
  utf8_encode s = Some b -> utf8_decode b = Some s.
Proof.
  induction s as [|c s IH]; intros b; cbn [utf8_encode].
  - intros [= <-]. reflexivity.
  - destruct (utf8_encode_cp c) as [x|] eqn:Ec; [|discriminate].
    destruct (utf8_encode s) as [y|]; [|discriminate].
    intros [= <-]. rewrite (utf8_decode_cp _ _ _ Ec), (IH y eq_refl).
    reflexivity.
Qed.

Lemma utf8_encode_cp_nonempty c : utf8_encode_cp c <> Some [].
Proof. unfold utf8_encode_cp. split_ifs; discriminate. Qed.

(** Only the empty text has an empty encoding. *)
Lemma utf8_encode_nil_inv s : utf8_encode s = Some [] -> s = [].
Proof.
  destruct s as [|c s]; [reflexivity|]. cbn [utf8_encode].
  destruct (utf8_encode_cp c) as [x|] eqn:Ec; [|discriminate].
  destruct (utf8_encode s) as [y|]; [|discriminate].
  intros [= E]. apply app_eq_nil in E as [-> _].
  destruct (utf8_encode_cp_nonempty _ Ec).
Qed.

Lemma utf8_encode_app s1 s2 :
  utf8_encode (s1 ++ s2) =
    match utf8_encode s1, utf8_encode s2 with
    | Some x, Some y => Some (x ++ y)
    | _, _ => None
    end.
Proof.
  induction s1 as [|c s1 IH]; cbn [app utf8_encode].
  - destruct (utf8_encode s2); reflexivity.
  - rewrite IH. destruct (utf8_encode_cp c), (utf8_encode s1), (utf8_encode s2);
      rewrite <- ?app_assoc; reflexivity.
Qed.

(** Encoding fails on exactly the code points that are no scalar values. *)
Lemma utf8_encode_cp_scalar c : scalar c = true <-> is_Some (utf8_encode_cp c).
Proof.
  unfold scalar, utf8_encode_cp, is_surrogate.
  split.
  - intros H. split_ifs; bool_props; eauto; lia.
  - intros [x H]. revert H. split_ifs; try discriminate; intros _;
      bool_props; apply andb_true_intro; split;
      rewrite ?negb_true_iff, ?andb_false_iff, ?N.ltb_lt, ?N.leb_gt; lia.
Qed.

Lemma utf8_encode_scalar s :
  forallb scalar s = true <-> is_Some (utf8_encode s).
Proof.
  induction s as [|c s IH]; cbn [forallb utf8_encode].
  - split; eauto.
  - rewrite andb_true_iff, IH, utf8_encode_cp_scalar.
    destruct (utf8_encode_cp c), (utf8_encode s); split;
      try (intros [[? ?] [? ?]]; discriminate); try (intros [? ?]; discriminate);
      eauto.
Qed.

(** ASCII text is its own encoding. *)
Lemma utf8_encode_ascii s :
  Forall (fun c => c < 0x80) s -> utf8_encode s = Some s.
Proof.
  induction 1 as [|c s Hc _ IH]; cbn [utf8_encode]; [reflexivity|].
  rewrite IH. unfold utf8_encode_cp.
  destruct (N.ltb_spec c 0x80); [reflexivity|lia].
Qed.

Lemma utf8_encode_lit_count : utf8_encode (lit "count:") = Some (lit "count:").
Proof. reflexivity. Qed.

(** ** The shape of a digest *)

Lemma le_bytes_length n : forall w, length (MD5.le_bytes n w) = n.
Proof. induction n; intros w; cbn [MD5.le_bytes length]; [|rewrite IHn]; reflexivity. Qed.

Lemma le_bytes_octets n : forall w, Forall (fun b => b < 256) (MD5.le_bytes n w).
Proof.
  induction n; intros w; cbn [MD5.le_bytes]; constructor; [|apply IHn].
  apply N.mod_upper_bound. discriminate.
Qed.

Lemma digest_length msg : length (MD5.digest msg) = 16%nat.
Proof. unfold MD5.digest. cbv zeta. rewrite !length_app, !le_bytes_length. reflexivity. Qed.

Lemma digest_octets msg : Forall (fun b => b < 256) (MD5.digest msg).
Proof. unfold MD5.digest. cbv zeta. rewrite !Forall_app. repeat split; apply le_bytes_octets. Qed.

Lemma hex_digit_is_hex n : n < 16 -> MD5.is_hex (MD5.hex_digit n) = true.
Proof.
  intros H. unfold MD5.is_hex, MD5.hex_digit.
  destruct (N.ltb_spec n 10).
  - apply orb_true_iff. left. apply andb_true_iff. rewrite N.leb_le, N.leb_le. lia.
  - apply orb_true_iff. right. apply andb_true_iff. rewrite N.leb_le, N.leb_le. lia.
Qed.

Lemma flat_map_hex_byte b :
  Forall (fun x => x < 256) b ->
  length (flat_map MD5.hex_byte b) = (2 * length b)%nat
  /\ forallb MD5.is_hex (flat_map MD5.hex_byte b) = true.
Proof.
  induction 1 as [|x b Hx _ [IHl IHh]]; [split; reflexivity|].
  cbn [flat_map MD5.hex_byte app length forallb]. split; [rewrite IHl; lia|].
  rewrite IHh, !hex_digit_is_hex; [reflexivity| |].
  - apply N.mod_upper_bound. discriminate.
  - apply N.Div0.div_lt_upper_bound. lia.
Qed.

(** A hex digest has 32 characters, all of them in [0-9a-f]. *)
Lemma hexdigest_length msg : length (MD5.hexdigest msg) = 32%nat.
Proof.
  unfold MD5.hexdigest.
  rewrite (proj1 (flat_map_hex_byte _ (digest_octets msg))), digest_length.
  reflexivity.
Qed.

Lemma hexdigest_hex msg : forallb MD5.is_hex (MD5.hexdigest msg) = true.
Proof. apply flat_map_hex_byte, digest_octets. Qed.

Lemma is_hex_ascii c : MD5.is_hex c = true -> c < 0x80.
Proof. unfold MD5.is_hex. intros H. bool_props; lia. Qed.

Lemma hexdigest_encode msg : utf8_encode (MD5.hexdigest msg) = Some (MD5.hexdigest msg).
Proof.
  apply utf8_encode_ascii, Forall_forall. intros c Hc.
  apply is_hex_ascii.
  pose proof (hexdigest_hex msg) as H. rewrite forallb_forall in H.
  apply H, list_elem_of_In, Hc.
Qed.

(** ** Counter keys and cache keys *)

Lemma count_key_encode u : count_key u = app (lit "count:") <$> utf8_encode u.
Proof.
  unfold count_key, count_name. rewrite utf8_encode_app, utf8_encode_lit_count.
  destruct (utf8_encode u); reflexivity.
Qed.

Lemma cache_key_encode u : cache_key u = MD5.hexdigest <$> utf8_encode u.
Proof.
  unfold cache_key, sanitize_url.
  destruct (utf8_encode u); [apply hexdigest_encode|reflexivity].
Qed.

(** The second character of a counter name is the letter [o], which no hex
    digest contains. *)
Lemma count_name_not_digest (t : list N) msg : lit "count:" ++ t <> MD5.hexdigest msg.
Proof.
  intros E. pose proof (hexdigest_hex msg) as H. rewrite <- E in H.
  vm_compute in H. discriminate.
Qed.

(** ** The server's integers *)

Local Open Scope Z_scope.

Lemma digit_uint_bytes u : bytes_uint (uint_bytes u) = Some u.
Proof.
  induction u; cbn [uint_bytes bytes_uint]; [reflexivity|..];
    rewrite IHu; reflexivity.
Qed.

Lemma uint_bytes_head u c t : uint_bytes u = c :: t -> (c =? 45)%N = false.
Proof. destruct u; cbn [uint_bytes]; [discriminate|..]; intros [= <- _]; reflexivity. Qed.

(** The server reads back the integers it writes. *)
Lemma parse_int_bytes z :
  INT64_MIN <= z <= INT64_MAX -> parse_int (int_bytes z) = Some z.
Proof.
  intros [Hlo Hhi]. unfold parse_int.
  assert (Hr : match int_bytes z with
               | c :: t => if (c =? 45)%N
                           then Z.of_int ∘ Decimal.Neg <$> bytes_uint t
                           else Z.of_int ∘ Decimal.Pos <$> bytes_uint (int_bytes z)
               | [] => None
               end = Some z).
  { pose proof (DecimalZ.of_to z) as Hz. unfold int_bytes.
    destruct (Z.to_int z) as [u|u] eqn:Eu.
    - destruct (uint_bytes u) as [|c t] eqn:Eb.
      + destruct u; try discriminate. cbn in Hz. subst z. discriminate Eu.
      + rewrite (uint_bytes_head _ _ _ Eb), <- Eb, digit_uint_bytes.
        change (Some (Z.of_int (Decimal.Pos u)) = Some z). rewrite Hz. reflexivity.
    - rewrite N.eqb_refl, digit_uint_bytes.
      change (Some (Z.of_int (Decimal.Neg u)) = Some z). rewrite Hz. reflexivity. }
  rewrite Hr, bool_decide_eq_true_2 by reflexivity.
  apply Z.leb_le in Hlo, Hhi. rewrite Hlo, Hhi. reflexivity.
Qed.

Lemma parse_int_range b z : parse_int b = Some z -> INT64_MIN <= z <= INT64_MAX.
Proof.
  unfold parse_int.
  match goal with |- context [match ?r with Some _ => _ | None => _ end] =>
    destruct r as [z'|]; [|discriminate] end.
  destruct (bool_decide _); [|discriminate].
  destruct (Z.leb_spec INT64_MIN z'); [|discriminate].
  destruct (Z.leb_spec z' INT64_MAX); [|discriminate].
  intros [= <-]. split; assumption.
Qed.

(** ** The commands *)

Lemma INCRBY_lookup_ne (k : bytes) (a : Z) (d d' : db) (n : Z) (k' : bytes) :
  INCRBY k a d = inr (n, d') -> k' <> k -> d' !! k' = d !! k'.
Proof.
  unfold INCRBY. intros H Hne.
  repeat match type of H with
  | match ?x with _ => _ end = _ => destruct x; try discriminate
  | (if ?x then _ else _) = _ => destruct x; try discriminate
  end; injection H as <- <-; apply lookup_insert_ne; congruence.
Qed.

Lemma GET_lookup (k : bytes) (d d' : db) : d' !! k = d !! k -> GET k d' = GET k d.
Proof. unfold GET. intros ->. reflexivity. Qed.

(** A counter reading [n] below the maximum is what INCRBY needs: the reply
    is [n + 1], and that is also the new reading. *)
Lemma INCRBY_counter (d : db) (u : str) (n : Z) :
  counter d u = Some n -> n < INT64_MAX ->
  exists kc t,
    count_key u = Some kc
    /\ INCRBY kc 1 d = inr (n + 1, <[kc := Entry (String (int_bytes (n + 1))) t]> d).
Proof.
  unfold counter, INCRBY. intros H Hn.
  destruct (count_key u) as [kc|]; [|discriminate]. exists kc.
  assert (Hin : forall m, INT64_MIN <= m -> m < INT64_MAX ->
                (INT64_MIN <=? m + 1) && (m + 1 <=? INT64_MAX) = true).
  { intros m H1 H2. apply andb_true_intro. rewrite !Z.leb_le. lia. }
  destruct (d !! kc) as [e|].
  - destruct (val e) as [s|]; [|discriminate]. rewrite H.
    exists (ttl e). split; [reflexivity|].
    rewrite Hin; [reflexivity| |assumption]. apply (parse_int_range _ _ H).
  - injection H as <-. exists None. split; [reflexivity|].
    rewrite Hin; [reflexivity| |assumption]. unfold INT64_MIN. lia.
Qed.

Lemma counter_insert (d : db) (u : str) (kc : bytes) (n : Z) (t : option Z) :
  count_key u = Some kc -> INT64_MIN <= n <= INT64_MAX ->
  counter (<[kc := Entry (String (int_bytes n)) t]> d) u = Some n.
Proof.
  intros Hk Hn. unfold counter. rewrite Hk, lookup_insert_eq. cbn [val].
  apply parse_int_bytes, Hn.
Qed.

Lemma counter_lookup (d d' : db) (u : str) (kc : bytes) :
  count_key u = Some kc -> d' !! kc = d !! kc -> counter d' u = counter d u.
Proof. intros Hk H. unfold counter. rewrite Hk, H. reflexivity. Qed.

(** ** One call of the wrapper, step by step *)

(** Once the URL is encodable and the increment goes through, the call is
    decided by what GET finds under the cache key and by what the decorated
    function does. *)
Lemma wrapper_steps {Net} (fn : @callable Net) (u : str) (w : world)
    (b : bytes) (n : Z) (d1 : db) :
  utf8_encode u = Some b ->
  INCRBY (lit "count:" ++ b) 1 (store w) = inr (n, d1) ->
  wrapper fn u w =
    match GET (MD5.hexdigest b) (store w) with
    | inl e => (Raise (ResponseError e), World d1 (net w) (fetched w))
    | inr (Some ((_ :: _) as page)) =>
      (match utf8_decode page with
       | Some s => Ok s
       | None => Raise UnicodeDecodeError
       end, World d1 (net w) (fetched w))
    | inr _ =>
      match fn u (net w) with
      | (Ok s, nt) =>
        match utf8_encode s with
        | Some v =>
          (Ok s, World (<[MD5.hexdigest b :=
                           Entry (String v) (Some CACHE_EXPIRATION)]> d1)
                       nt (fetched w ++ [u]))
        | None => (Raise UnicodeEncodeError, World d1 nt (fetched w ++ [u]))
        end
      | (Raise e, nt) => (Raise e, World d1 nt (fetched w ++ [u]))
      end
    end.
Proof.
  intros Hb Hi.
  assert (Hg : GET (MD5.hexdigest b) d1 = GET (MD5.hexdigest b) (store w)).
  { apply GET_lookup, (INCRBY_lookup_ne _ _ _ _ _ _ Hi).
    intros E. symmetry in E. exact (count_name_not_digest _ _ E). }
  pose proof (count_key_encode u) as Hc. unfold count_key in Hc.
  rewrite Hb in Hc. cbn [fmap option_fmap option_map] in Hc.
  unfold wrapper, redis_incr, redis_get, redis_setex, sanitize_url, lift,
    call, decode, bind, encode_arg, command, ret, raise.
  rewrite Hc, Hi, Hb, hexdigest_encode. cbn [store net fetched].
  rewrite Hg.
  destruct (GET (MD5.hexdigest b) (store w)) as [e|[[|c page]|]];
    cbn [store net fetched]; try reflexivity;
    try (destruct (utf8_decode (c :: page)); reflexivity);
    destruct (fn u (net w)) as [[s|e] nt]; cbn [store net fetched];
    try reflexivity;
    rewrite ?hexdigest_encode; destruct (utf8_encode s); reflexivity.
Qed.

(** A counter that reads [n] below the maximum lets the increment through:
    the URL is encodable and INCRBY replies [n + 1]. *)
Lemma counted (d : db) (u : str) (n : Z) :
  counter d u = Some n -> n < INT64_MAX ->
  exists b t,
    utf8_encode u = Some b
    /\ INCRBY (lit "count:" ++ b) 1 d
       = inr (n + 1, <[lit "count:" ++ b := Entry (String (int_bytes (n + 1))) t]> d).
Proof.
  intros Hc Hn. destruct (INCRBY_counter _ _ _ Hc Hn) as (kc & t & Hk & Hi).
  rewrite count_key_encode in Hk.
  destruct (utf8_encode u) as [b|]; [|discriminate]. injection Hk as <-.
  exists b, t. split; [reflexivity|exact Hi].
Qed.

Lemma counted_range (d : db) (u : str) (n : Z) :
  counter d u = Some n -> n < INT64_MAX -> INT64_MIN <= n + 1 <= INT64_MAX.
Proof.
  unfold counter. intros H Hn. cut (INT64_MIN <= n); [lia|].
  destruct (count_key u); [|discriminate].
  destruct (d !! b) as [e|].
  - destruct (val e); [|discriminate]. apply (parse_int_range _ _ H).
  - injection H as <-. unfold INT64_MIN. lia.
Qed.

Lemma cache_key_digest (u : str) (b k : bytes) :
  utf8_encode u = Some b -> cache_key u = Some k -> k = MD5.hexdigest b.
Proof. rewrite cache_key_encode. intros -> [= <-]. reflexivity. Qed.

Lemma digest_not_count_name (b : bytes) (t : list N) : MD5.hexdigest b <> lit "count:" ++ t.
Proof. intros E. symmetry in E. exact (count_name_not_digest _ _ E). Qed.

Lemma GET_string (d : db) (k v : bytes) (t : option Z) :
  d !! k = Some (Entry (String v) t) -> GET k d = inr (Some v).
Proof. unfold GET. intros ->. reflexivity. Qed.

Lemma GET_absent (d : db) (k : bytes) : d !! k = None -> GET k d = inr None.
Proof. unfold GET. intros ->. reflexivity. Qed.

Lemma counter_empty (u : str) (b : bytes) :
  utf8_encode u = Some b -> counter ∅ u = Some 0.
Proof.
  intros Hb. unfold counter. rewrite count_key_encode, Hb. cbn.
  rewrite lookup_empty. reflexivity.
Qed.

(** The call on the hit path: only the counter changes. *)
Lemma wrapper_hit {Net} (fn : @callable Net) (u : str) (w : world) (n : Z)
    (b : bytes) (c : N) (page : bytes) (t : option Z) :
  counter (store w) u = Some n -> n < INT64_MAX ->
  utf8_encode u = Some b ->
  store w !! MD5.hexdigest b = Some (Entry (String (c :: page)) t) ->
  exists tc,
    wrapper fn u w =
      (match utf8_decode (c :: page) with
       | Some s => Ok s
       | None => Raise UnicodeDecodeError
       end,
       World (<[lit "count:" ++ b := Entry (String (int_bytes (n + 1))) tc]> (store w))
             (net w) (fetched w)).
Proof.
  intros Hc Hn Hb Hv.
  destruct (counted _ _ _ Hc Hn) as (b' & tc & Hb' & Hi).
  rewrite Hb in Hb'. injection Hb' as <-. exists tc.
  rewrite (wrapper_steps fn u w b _ _ Hb Hi), (GET_string _ _ _ _ Hv).
  reflexivity.
Qed.

(** The call on the miss path, when the decorated function returns text that
    can be encoded: the counter changes and the page is stored. *)
Lemma wrapper_miss {Net} (fn : @callable Net) (u : str) (w : world) (n : Z)
    (b : bytes) (s : str) (v : bytes) (nt : Net) :
  counter (store w) u = Some n -> n < INT64_MAX ->
  utf8_encode u = Some b ->
  store w !! MD5.hexdigest b = None ->
  fn u (net w) = (Ok s, nt) ->
  utf8_encode s = Some v ->
  exists tc,
    wrapper fn u w =
      (Ok s,
       World (<[MD5.hexdigest b := Entry (String v) (Some CACHE_EXPIRATION)]>
                (<[lit "count:" ++ b := Entry (String (int_bytes (n + 1))) tc]>
                   (store w)))
             nt (fetched w ++ [u])).
Proof.
  intros Hc Hn Hb Hv Hf Hs.
  destruct (counted _ _ _ Hc Hn) as (b' & tc & Hb' & Hi).
  rewrite Hb in Hb'. injection Hb' as <-. exists tc.
  rewrite (wrapper_steps fn u w b _ _ Hb Hi), (GET_absent _ _ Hv), Hf, Hs.
  reflexivity.
Qed.

(** The counter after a page has been stored next to it. *)
Lemma counter_after_store (d : db) (u : str) (b : bytes) (n : Z)
    (tc : option Z) (e : entry) :
  utf8_encode u = Some b -> INT64_MIN <= n <= INT64_MAX ->
  counter (<[MD5.hexdigest b := e]>
             (<[lit "count:" ++ b := Entry (String (int_bytes n)) tc]> d)) u
  = Some n.
Proof.
  intros Hb Hn.
  assert (Hk : count_key u = Some (lit "count:" ++ b))
    by (rewrite count_key_encode, Hb; reflexivity).
  rewrite (counter_lookup (<[lit "count:" ++ b := Entry (String (int_bytes n)) tc]> d)
             _ _ _ Hk).
  - apply counter_insert; assumption.
  - apply lookup_insert_ne, digest_not_count_name.
Qed.

(** Where the increment does not go through, the call raises at its first
    statement and leaves everything as it was: the cache is not looked up
    and the decorated function is not called. *)
Lemma call_without_counter {Net} (fn : @callable Net) (u : str) (w : world) :
  counter (store w) u = None -> exists e, wrapper fn u w = (Raise e, w).
Proof.
  unfold counter, count_key, wrapper, redis_incr, bind, encode_arg, command,
    ret, raise, INCRBY.
  destruct (utf8_encode (count_name u)) as [kc|]; [|eauto].
  destruct (store w !! kc) as [e|]; [|discriminate].
  destruct (val e) as [s|]; [|eauto]. intros ->. eauto.
Qed.

Lemma call_at_maximum {Net} (fn : @callable Net) (u : str) (w : world) :
  counter (store w) u = Some INT64_MAX ->
  wrapper fn u w = (Raise (ResponseError IncrOverflow), w).
Proof.
  unfold counter, count_key, wrapper, redis_incr, bind, encode_arg, command,
    ret, raise, INCRBY.
  destruct (utf8_encode (count_name u)) as [kc|]; [|discriminate].
  destruct (store w !! kc) as [e|]; [|discriminate].
  destruct (val e) as [s|]; [|discriminate]. intros ->. reflexivity.
Qed.

(** ** Time to live *)

Lemma elapse_lookup (dt : Z) (d : db) (k : bytes) :
  elapse dt d !! k = d !! k ≫= age dt.
Proof. unfold elapse. apply lookup_omap. Qed.

(** A page stored by SETEX is there for [CACHE_EXPIRATION] seconds and gone
    afterwards. *)
Lemma stored_page_lives (d : db) (k v : bytes) (dt : Z) :
  0 <= dt <= CACHE_EXPIRATION ->
  elapse dt (<[k := Entry (String v) (Some CACHE_EXPIRATION)]> d) !! k
  = Some (Entry (String v) (Some (CACHE_EXPIRATION - dt))).
Proof.
  intros [_ H]. rewrite elapse_lookup, lookup_insert_eq. cbn. unfold age. cbn.
  apply Z.leb_le in H. rewrite H. reflexivity.
Qed.

Lemma stored_page_expires (d : db) (k v : bytes) (dt : Z) :
  CACHE_EXPIRATION < dt ->
  elapse dt (<[k := Entry (String v) (Some CACHE_EXPIRATION)]> d) !! k = None.
Proof.
  intros H. rewrite elapse_lookup, lookup_insert_eq. cbn. unfold age. cbn.
  apply Z.leb_gt in H. rewrite H. reflexivity.
Qed.

(** Time adds up. *)
Lemma elapse_elapse (a b : Z) (d : db) :
  0 <= a -> 0 <= b -> elapse a (elapse b d) = elapse (b + a) d.
Proof.
  intros Ha Hb. apply map_eq. intros k. rewrite !elapse_lookup.
  match goal with |- (?x ≫= _) ≫= _ = _ => destruct x as [[v [t|]]|] end;
    [|reflexivity..].
  unfold age; cbn.
  destruct (Z.leb_spec b t), (Z.leb_spec (b + a) t); cbn;
    try (destruct (Z.leb_spec a (t - b)); cbn);
    try lia; try reflexivity.
  do 3 f_equal. lia.
Qed.

(** ** The scenario, run *)

Example sanitize_url_sample :
  sanitize_url [104; 233; 8364; 128512]%N
  = Ok (lit "d0c8028dc1ea664817dc280ffbd0780a").
Proof. vm_compute. reflexivity. Qed.

Example sanitize_url_scenario : sanitize_url Scenario.url = Ok Scenario.key.
Proof. vm_compute. reflexivity. Qed.

(** Empty server, the decorated function replies ["hello"]: the call returns
    ["hello"], the counter reads 1 and the page is stored. *)
Example first_call :
  let r := wrapper canned Scenario.url (Scenario.fresh [lit "hello"; lit "world"]) in
  fst r = Ok (lit "hello")
  /\ counter (store (snd r)) Scenario.url = Some 1
  /\ store (snd r) !! Scenario.key
     = Some (Entry (String (lit "hello")) (Some 10))
  /\ fetched (snd r) = [Scenario.url].
Proof. vm_compute. repeat split. Qed.

(** At once again: still ["hello"], the counter reads 2, and the decorated
    function has been called once in all. *)
Example second_call :
  let r1 := wrapper canned Scenario.url (Scenario.fresh [lit "hello"; lit "world"]) in
  let r2 := wrapper canned Scenario.url (snd r1) in
  fst r2 = Ok (lit "hello")
  /\ counter (store (snd r2)) Scenario.url = Some 2
  /\ fetched (snd r2) = [Scenario.url].
Proof. vm_compute. repeat split. Qed.

(** Once the time to live is over: the decorated function is called a second
    time, the call returns ["world"], the counter reads 3 and the server
    holds ["world"]. *)
Example third_call :
  let r1 := wrapper canned Scenario.url (Scenario.fresh [lit "hello"; lit "world"]) in
  let r2 := wrapper canned Scenario.url (snd r1) in
  let r3 := wrapper canned Scenario.url (sleep 11 (snd r2)) in
  fst r3 = Ok (lit "world")
  /\ counter (store (snd r3)) Scenario.url = Some 3
  /\ store (snd r3) !! Scenario.key
     = Some (Entry (String (lit "world")) (Some 10))
  /\ fetched (snd r3) = [Scenario.url; Scenario.url].
Proof. vm_compute. repeat split. Qed.

(** What the client and the server refuse. *)
Example incr_refuses_text :
  fst (wrapper canned Scenario.url
         (World {[ lit "count:http://example.com" := Entry (String (lit "abc")) None ]}
                [] []))
  = Raise (ResponseError NotAnInteger).
Proof. vm_compute. reflexivity. Qed.

Example incr_refuses_overflow :
  fst (wrapper canned Scenario.url
         (World {[ lit "count:http://example.com"
                   := Entry (String (lit "9223372036854775807")) None ]}
                [] []))
  = Raise (ResponseError IncrOverflow).
Proof. vm_compute. reflexivity. Qed.

Example incr_refuses_surrogate :
  wrapper canned [0xD800%N] (Scenario.fresh [lit "hello"])
  = (Raise UnicodeEncodeError, Scenario.fresh [lit "hello"]).
Proof. vm_compute. reflexivity. Qed.

Example decode_refuses_latin1 :
  fst (wrapper canned Scenario.url (Scenario.holding [0xE9%N] None []))
  = Raise UnicodeDecodeError.
Proof. vm_compute. reflexivity. Qed.

(** The counter of a URL is the reading of its counter key. *)
Lemma counter_reading (d : db) (u : str) (k : bytes) :
  count_key u = Some k -> counter d u = reading d k.
Proof. intros Hk. unfold counter, reading. rewrite Hk. reflexivity. Qed.

(** * The claims *)

(** ** C1: what a call does when the page is cached *)

(** C1: the code breaks the claim on a cached page that is empty.  The
    server holds the empty string under the cache key of the URL; the test
    [if cached_page:], which the comments of the wrapper call a check that
    the page is already cached, takes the empty reply of GET for false; the
    call goes on to the decorated function and returns its reply ["hello"],
    not the (empty) stored page. *)
Lemma C1_empty_page_is_fetched_again :
  cache_key Scenario.url = Some Scenario.key
  /\ store (Scenario.holding [] (Some 7) [lit "hello"]) !! Scenario.key
     = Some (Entry (String []) (Some 7))
  /\ fst (wrapper canned Scenario.url (Scenario.holding [] (Some 7) [lit "hello"]))
     = Ok (lit "hello")
  /\ fst (wrapper canned Scenario.url (Scenario.holding [] (Some 7) [lit "hello"]))
     <> Ok []
  /\ fetched (snd (wrapper canned Scenario.url
                     (Scenario.holding [] (Some 7) [lit "hello"])))
     = [Scenario.url].
Proof. vm_compute. repeat split; discriminate. Qed.

(** On every cached page that is not empty the call does what C1 says: for
    every URL [u] whose counter can be incremented, if the server holds a
    non-empty string under the cache key of [u] when the call is made, the
    call yields the UTF-8 decoding of that string (the decoded
    text, or [UnicodeDecodeError] when the string is not UTF-8) and does not
    call the decorated function: the record of its calls and the outside
    world are as before. *)
Theorem C1_cached_page_is_returned {Net} (fn : @callable Net) (u : str)
    (w : world) (n : Z) (k : bytes) (c : N) (page : bytes) (t : option Z) :
  counter (store w) u = Some n -> n < INT64_MAX ->
  cache_key u = Some k ->
  store w !! k = Some (Entry (String (c :: page)) t) ->
  fst (wrapper fn u w)
    = match utf8_decode (c :: page) with
      | Some s => Ok s
      | None => Raise UnicodeDecodeError
      end
  /\ fetched (snd (wrapper fn u w)) = fetched w
  /\ net (snd (wrapper fn u w)) = net w.
Proof.
  intros Hc Hn Hk Hv.
  destruct (counted _ _ _ Hc Hn) as (b & tc & Hb & Hi).
  rewrite (wrapper_steps fn u w b _ _ Hb Hi).
  rewrite <- (cache_key_digest _ _ _ Hb Hk), (GET_string _ _ _ _ Hv).
  repeat split; reflexivity.
Qed.

Lemma C1_cached_page_is_returned_example :
  fst (wrapper canned Scenario.url
         (Scenario.holding (lit "hello") (Some 7) [lit "world"]))
    = Ok (lit "hello")
  /\ fetched (snd (wrapper canned Scenario.url
                     (Scenario.holding (lit "hello") (Some 7) [lit "world"])))
     = []
  /\ net (snd (wrapper canned Scenario.url
                 (Scenario.holding (lit "hello") (Some 7) [lit "world"])))
     = [lit "world"].
Proof.
  apply (C1_cached_page_is_returned canned Scenario.url
           (Scenario.holding (lit "hello") (Some 7) [lit "world"])
           0 Scenario.key 104%N (lit "ello") (Some 7));
    vm_compute; reflexivity.
Defined.

(** ** C2: two calls in a row *)

(** C2: the code breaks the claim for a page that is empty.  On an empty
    server the first call stores the empty page, by the wrapper's own
    [setex]; the second call takes the empty reply of GET for false, although
    the page is cached, and calls the decorated function again: two calls of
    it, not one. *)
Lemma C2_empty_page_is_fetched_twice :
  fst (wrapper canned Scenario.url (Scenario.fresh [[]; []])) = Ok []
  /\ fst (wrapper canned Scenario.url
            (snd (wrapper canned Scenario.url (Scenario.fresh [[]; []]))))
     = Ok []
  /\ fetched (snd (wrapper canned Scenario.url
                     (snd (wrapper canned Scenario.url (Scenario.fresh [[]; []])))))
     = [Scenario.url; Scenario.url].
Proof. vm_compute. repeat split. Qed.

(** For every page that is not empty the two calls do what C2 says: for
    every URL [u] and every non-empty page [s] that the decorated function
    returns for it, both of them text that UTF-8 can
    encode, two calls in a row on an empty server call the decorated
    function exactly once (one more entry [u] in the record of its calls,
    and the outside world is the one left by that single call), and both
    calls return [s]. *)
Theorem C2_second_call_is_served_from_cache {Net} (fn : @callable Net)
    (u s : str) (nt nt' : Net) (l : list str) :
  is_Some (utf8_encode u) -> is_Some (utf8_encode s) -> s <> [] ->
  fn u nt = (Ok s, nt') ->
  fst (wrapper fn u (World ∅ nt l)) = Ok s
  /\ fst (wrapper fn u (snd (wrapper fn u (World ∅ nt l)))) = Ok s
  /\ fetched (snd (wrapper fn u (snd (wrapper fn u (World ∅ nt l))))) = l ++ [u]
  /\ net (snd (wrapper fn u (snd (wrapper fn u (World ∅ nt l))))) = nt'.
Proof.
  intros [b Hb] [v Hs] Hne Hf.
  destruct (wrapper_miss fn u (World ∅ nt l) 0 b s v nt') as [tc ->];
    [exact (counter_empty _ _ Hb)|reflexivity|exact Hb|apply lookup_empty
    |exact Hf|exact Hs|].
  cbn [fst snd].
  destruct v as [|c page]; [destruct Hne; apply utf8_encode_nil_inv, Hs|].
  match goal with |- context [wrapper fn u ?w1] =>
    destruct (wrapper_hit fn u w1 1 b c page (Some CACHE_EXPIRATION)) as [tc' ->]
  end.
  - apply counter_after_store; [exact Hb|]. vm_compute. split; discriminate.
  - reflexivity.
  - exact Hb.
  - apply lookup_insert_eq.
  - cbn [fst snd fetched net]. rewrite (utf8_decode_encode _ _ Hs).
    repeat split.
Qed.

Lemma C2_second_call_is_served_from_cache_example :
  fst (wrapper canned Scenario.url (Scenario.fresh [lit "hello"; lit "world"]))
    = Ok (lit "hello")
  /\ fst (wrapper canned Scenario.url
            (snd (wrapper canned Scenario.url
                    (Scenario.fresh [lit "hello"; lit "world"]))))
     = Ok (lit "hello")
  /\ fetched (snd (wrapper canned Scenario.url
                     (snd (wrapper canned Scenario.url
                             (Scenario.fresh [lit "hello"; lit "world"])))))
     = [] ++ [Scenario.url]
  /\ net (snd (wrapper canned Scenario.url
                 (snd (wrapper canned Scenario.url
                         (Scenario.fresh [lit "hello"; lit "world"])))))
     = [lit "world"].
Proof.
  apply (C2_second_call_is_served_from_cache canned Scenario.url (lit "hello")
           [lit "hello"; lit "world"] [lit "world"] []).
  - vm_compute. eauto.
  - vm_compute. eauto.
  - discriminate.
  - reflexivity.
Defined.

(** ** C3: every call counts *)

(** C3, as stated, fails on a URL that holds a lone surrogate.  The client
    cannot encode the name ["count:" + url], [incr] raises
    [UnicodeEncodeError] before anything is sent, and no counter is
    incremented: the server is as empty as before. *)
Lemma C3_surrogate_url_is_not_counted :
  wrapper canned [0xD800%N] (Scenario.fresh [lit "hello"])
  = (Raise UnicodeEncodeError, Scenario.fresh [lit "hello"])
  /\ store (snd (wrapper canned [0xD800%N] (Scenario.fresh [lit "hello"]))) = ∅.
Proof. vm_compute. split; reflexivity. Qed.

(** C3, amended: for every URL [u] that UTF-8 can encode, with encoding [b],
    the key that the call increments is the encoding of ["count:" + u], that
    is the bytes of ["count:"] followed by [b], the URL as it is and not its
    digest; when that key reads [n] (a key that is not there reads 0) below
    the 64-bit maximum, it reads [n + 1] after the call, whatever the cache
    holds and whatever the decorated function does: hit or miss, page
    returned or exception raised. *)
Theorem C3_every_call_counts {Net} (fn : @callable Net) (u : str)
    (w : world) (b : bytes) (n : Z) :
  utf8_encode u = Some b ->
  reading (store w) (lit "count:" ++ b) = Some n -> n < INT64_MAX ->
  utf8_encode (lit "count:" ++ u) = Some (lit "count:" ++ b)
  /\ reading (store (snd (wrapper fn u w))) (lit "count:" ++ b) = Some (n + 1).
Proof.
  intros Hb.
  assert (Hk : count_key u = Some (lit "count:" ++ b))
    by (rewrite count_key_encode, Hb; reflexivity).
  rewrite <- !(counter_reading _ u _ Hk). intros Hc Hn.
  split; [exact Hk|].
  pose proof (counted_range _ _ _ Hc Hn) as Hr.
  destruct (counted _ _ _ Hc Hn) as (b' & tc & Hb' & Hi).
  rewrite Hb in Hb'. injection Hb' as <-.
  rewrite (wrapper_steps fn u w b _ _ Hb Hi).
  destruct (GET (MD5.hexdigest b) (store w)) as [e|[[|c page]|]];
    try (cbn [snd store]; apply counter_insert; assumption);
    destruct (fn u (net w)) as [[s|e] nt];
    try (cbn [snd store]; apply counter_insert; assumption);
    destruct (utf8_encode s);
    cbn [snd store];
    solve [apply counter_insert; assumption
          |apply counter_after_store; assumption].
Qed.

Lemma C3_every_call_counts_example :
  utf8_encode (lit "count:" ++ Scenario.url)
  = Some (lit "count:" ++ lit "http://example.com")
  /\ reading (store (snd (wrapper canned Scenario.url
                            (Scenario.holding (lit "hello") (Some 7) []))))
             (lit "count:" ++ lit "http://example.com")
     = Some (0 + 1).
Proof.
  apply (C3_every_call_counts canned Scenario.url
           (Scenario.holding (lit "hello") (Some 7) [])
           (lit "http://example.com") 0);
    vm_compute; reflexivity.
Defined.

(** ** C4: the decorated function fails *)

(** C4: for every URL [u] whose counter reads [n] below the maximum and
    whose cache key is not in the server, if the decorated function raises
    [e], the call raises that same [e], the cache key is still not in the
    server, no key but the counter has changed, and the counter reads
    [n + 1]. *)
Theorem C4_failed_fetch_is_counted_not_cached {Net} (fn : @callable Net)
    (u : str) (w : world) (n : Z) (k : bytes) (e : exn) (nt : Net) :
  counter (store w) u = Some n -> n < INT64_MAX ->
  cache_key u = Some k ->
  store w !! k = None ->
  fn u (net w) = (Raise e, nt) ->
  fst (wrapper fn u w) = Raise e
  /\ store (snd (wrapper fn u w)) !! k = None
  /\ (forall k', count_key u <> Some k' ->
        store (snd (wrapper fn u w)) !! k' = store w !! k')
  /\ counter (store (snd (wrapper fn u w))) u = Some (n + 1).
Proof.
  intros Hc Hn Hk Hv Hf. pose proof (counted_range _ _ _ Hc Hn) as Hr.
  destruct (counted _ _ _ Hc Hn) as (b & tc & Hb & Hi).
  assert (Hkc : count_key u = Some (lit "count:" ++ b))
    by (rewrite count_key_encode, Hb; reflexivity).
  rewrite (cache_key_digest _ _ _ Hb Hk) in *.
  rewrite (wrapper_steps fn u w b _ _ Hb Hi), (GET_absent _ _ Hv), Hf.
  cbn [fst snd store]. repeat split.
  - rewrite lookup_insert_ne; [exact Hv|].
    intros E. exact (count_name_not_digest _ _ E).
  - intros k' Hk'. apply lookup_insert_ne.
    intros E. apply Hk'. rewrite Hkc, E. reflexivity.
  - apply counter_insert; assumption.
Qed.

Lemma C4_failed_fetch_is_counted_not_cached_example :
  fst (wrapper canned Scenario.url (Scenario.fresh []))
    = Raise (OtherError (lit "ConnectionError"))
  /\ store (snd (wrapper canned Scenario.url (Scenario.fresh []))) !! Scenario.key
     = None
  /\ (forall k', count_key Scenario.url <> Some k' ->
        store (snd (wrapper canned Scenario.url (Scenario.fresh []))) !! k'
        = store (Scenario.fresh []) !! k')
  /\ counter (store (snd (wrapper canned Scenario.url (Scenario.fresh []))))
             Scenario.url
     = Some (0 + 1).
Proof.
  apply (C4_failed_fetch_is_counted_not_cached canned Scenario.url
           (Scenario.fresh []) 0 Scenario.key
           (OtherError (lit "ConnectionError")) []);
    vm_compute; reflexivity.
Defined.

(** ** C5: a miss fetches the page and stores it *)

(** C5, as stated, fails on a reply that holds a lone surrogate.  The cache
    key is not in the server and the decorated function returns such a
    text; [setex] cannot encode it and raises [UnicodeEncodeError]: the
    reply is neither stored nor returned. *)
Lemma C5_unencodable_reply_is_not_stored :
  cache_key Scenario.url = Some Scenario.key
  /\ store (Scenario.fresh [[0xD800%N]]) !! Scenario.key = None
  /\ canned Scenario.url [[0xD800%N]] = (Ok [0xD800%N], [])
  /\ fst (wrapper canned Scenario.url (Scenario.fresh [[0xD800%N]]))
     = Raise UnicodeEncodeError
  /\ store (snd (wrapper canned Scenario.url (Scenario.fresh [[0xD800%N]])))
       !! Scenario.key
     = None.
Proof. vm_compute. repeat split. Qed.

(** C5, amended: for every URL [u] whose counter can be incremented and whose
    cache key is not in the server, if the decorated function returns a text
    [s] that UTF-8 can encode, the call has called the decorated function with [u] (one more
    entry [u] in the record of its calls, and the outside world it left),
    the server holds the UTF-8 encoding of [s] under the cache key with a
    time to live of [CACHE_EXPIRATION], the same 10 seconds for every URL,
    and the call returns [s]. *)
Theorem C5_miss_fetches_and_stores {Net} (fn : @callable Net) (u : str)
    (w : world) (n : Z) (k : bytes) (s : str) (v : bytes) (nt : Net) :
  counter (store w) u = Some n -> n < INT64_MAX ->
  cache_key u = Some k ->
  store w !! k = None ->
  fn u (net w) = (Ok s, nt) ->
  utf8_encode s = Some v ->
  fst (wrapper fn u w) = Ok s
  /\ fetched (snd (wrapper fn u w)) = fetched w ++ [u]
  /\ net (snd (wrapper fn u w)) = nt
  /\ store (snd (wrapper fn u w)) !! k
     = Some (Entry (String v) (Some CACHE_EXPIRATION))
  /\ CACHE_EXPIRATION = 10.
Proof.
  intros Hc Hn Hk Hv Hf Hs.
  destruct (utf8_encode u) as [b|] eqn:Hb;
    [|rewrite cache_key_encode, Hb in Hk; discriminate].
  rewrite (cache_key_digest _ _ _ Hb Hk) in *.
  destruct (wrapper_miss fn u w n b s v nt Hc Hn Hb Hv Hf Hs) as [tc ->].
  cbn [fst snd store net fetched]. repeat split. apply lookup_insert_eq.
Qed.

Lemma C5_miss_fetches_and_stores_example :
  fst (wrapper canned Scenario.url (Scenario.fresh [lit "hello"]))
    = Ok (lit "hello")
  /\ fetched (snd (wrapper canned Scenario.url (Scenario.fresh [lit "hello"])))
     = fetched (Scenario.fresh [lit "hello"]) ++ [Scenario.url]
  /\ net (snd (wrapper canned Scenario.url (Scenario.fresh [lit "hello"]))) = []
  /\ store (snd (wrapper canned Scenario.url (Scenario.fresh [lit "hello"])))
       !! Scenario.key
     = Some (Entry (String (lit "hello")) (Some CACHE_EXPIRATION))
  /\ CACHE_EXPIRATION = 10.
Proof.
  apply (C5_miss_fetches_and_stores canned Scenario.url
           (Scenario.fresh [lit "hello"]) 0 Scenario.key (lit "hello")
           (lit "hello") []);
    vm_compute; reflexivity.
Defined.

(** ** C6: counter keys and cache keys never meet *)

(** C6: for every pair of URLs [u] and [v], equal or not, the counter name
    ["count:" + u] is not the key [sanitize_url v], and the keys that reach
    the server for them, after the client's encoding, differ as well. *)
Theorem C6_counter_and_cache_keys_differ (u v : str) (name : str) :
  sanitize_url v = Ok name ->
  count_name u <> name
  /\ (forall kc kv, count_key u = Some kc -> cache_key v = Some kv -> kc <> kv).
Proof.
  unfold sanitize_url. destruct (utf8_encode v) as [b'|] eqn:Hv; [|discriminate].
  intros [= <-]. split.
  - apply count_name_not_digest.
  - intros kc kv. rewrite count_key_encode, cache_key_encode, Hv.
    destruct (utf8_encode u) as [b|]; [|discriminate].
    intros [= <-] [= <-]. apply count_name_not_digest.
Qed.

Lemma C6_counter_and_cache_keys_differ_example :
  count_name Scenario.url <> Scenario.key
  /\ (forall kc kv, count_key Scenario.url = Some kc ->
        cache_key Scenario.url = Some kv -> kc <> kv).
Proof.
  apply (C6_counter_and_cache_keys_differ Scenario.url Scenario.url Scenario.key).
  vm_compute. reflexivity.
Defined.

(** ** C7: the key derivation as a function *)

(** C7, as stated, fails on a [str] that holds a lone surrogate: [encode]
    raises [UnicodeEncodeError] and there is no key. *)
Lemma C7_lone_surrogate_has_no_key :
  sanitize_url [0xD800%N] = Raise UnicodeEncodeError
  /\ forall key, sanitize_url [0xD800%N] <> Ok key.
Proof. split; [reflexivity|discriminate]. Qed.

(** C7, amended: for every [str] of Unicode scalar values (no surrogate code
    points), of any length, [sanitize_url] returns a key; every evaluation
    on the same text gives that same key (the function takes the text and
    nothing else, and it lives outside the world that the calls change); the
    key consists of hexadecimal digits; and every key that [sanitize_url]
    returns for any text has the same length. *)
Theorem C7_sanitize_url_on_scalar_text (url : str) :
  forallb scalar url = true ->
  exists key,
    sanitize_url url = Ok key
    /\ (forall r, sanitize_url url = r -> r = Ok key)
    /\ forallb MD5.is_hex key = true
    /\ (forall url' key', sanitize_url url' = Ok key' -> length key' = length key).
Proof.
  intros H. apply utf8_encode_scalar in H as [b Hb].
  exists (MD5.hexdigest b). unfold sanitize_url. rewrite Hb.
  split; [reflexivity|]. split; [intros r <-; reflexivity|].
  split; [apply hexdigest_hex|].
  intros url' key'. destruct (utf8_encode url'); [|discriminate].
  intros [= <-]. rewrite !hexdigest_length. reflexivity.
Qed.

Lemma C7_sanitize_url_on_scalar_text_example :
  exists key,
    sanitize_url Scenario.url = Ok key
    /\ (forall r, sanitize_url Scenario.url = r -> r = Ok key)
    /\ forallb MD5.is_hex key = true
    /\ (forall url' key', sanitize_url url' = Ok key' -> length key' = length key).
Proof.
  apply (C7_sanitize_url_on_scalar_text Scenario.url). vm_compute. reflexivity.
Defined.

(** ** C8: what a hit writes *)

(** C8: the code breaks the claim on a cached page that is empty.  The
    server holds the empty string under the cache key, with 7 seconds to
    live; the page is cached, yet the call goes down the path that the
    wrapper's comments keep for pages that are not, and SETEX replaces the
    entry: new value, and a time to live of 10 seconds again. *)
Lemma C8_empty_page_is_overwritten :
  cache_key Scenario.url = Some Scenario.key
  /\ store (Scenario.holding [] (Some 7) [lit "hello"]) !! Scenario.key
     = Some (Entry (String []) (Some 7))
  /\ store (snd (wrapper canned Scenario.url
                   (Scenario.holding [] (Some 7) [lit "hello"])))
       !! Scenario.key
     = Some (Entry (String (lit "hello")) (Some 10)).
Proof. vm_compute. repeat split. Qed.

(** On every cached page that is not empty the call does what C8 says: for
    every URL [u] whose counter reads [n] below the maximum, if the server
    holds a non-empty string under the cache key of
    [u] when the call is made, then after the call that entry is the same,
    value and time to live, every key but the counter key holds what it
    held, and the server is in the state that the one INCRBY on the counter
    key leaves. *)
Theorem C8_hit_writes_only_the_counter {Net} (fn : @callable Net) (u : str)
    (w : world) (n : Z) (k : bytes) (c : N) (page : bytes) (t : option Z) :
  counter (store w) u = Some n -> n < INT64_MAX ->
  cache_key u = Some k ->
  store w !! k = Some (Entry (String (c :: page)) t) ->
  store (snd (wrapper fn u w)) !! k = Some (Entry (String (c :: page)) t)
  /\ (forall k', count_key u <> Some k' ->
        store (snd (wrapper fn u w)) !! k' = store w !! k')
  /\ exists kc,
       count_key u = Some kc
       /\ INCRBY kc 1 (store w) = inr (n + 1, store (snd (wrapper fn u w))).
Proof.
  intros Hc Hn Hk Hv.
  destruct (counted _ _ _ Hc Hn) as (b & tc & Hb & Hi).
  assert (Hkc : count_key u = Some (lit "count:" ++ b))
    by (rewrite count_key_encode, Hb; reflexivity).
  rewrite (cache_key_digest _ _ _ Hb Hk) in *.
  rewrite (wrapper_steps fn u w b _ _ Hb Hi), (GET_string _ _ _ _ Hv).
  cbn [snd store]. split; [|split].
  - rewrite lookup_insert_ne; [exact Hv|].
    intros E. exact (count_name_not_digest _ _ E).
  - intros k' Hk'. apply lookup_insert_ne.
    intros E. apply Hk'. rewrite Hkc, E. reflexivity.
  - exists (lit "count:" ++ b). split; [exact Hkc|exact Hi].
Qed.

Lemma C8_hit_writes_only_the_counter_example :
  store (snd (wrapper canned Scenario.url
                (Scenario.holding (lit "hello") (Some 7) [lit "world"])))
    !! Scenario.key
  = Some (Entry (String (104%N :: lit "ello")) (Some 7))
  /\ (forall k', count_key Scenario.url <> Some k' ->
        store (snd (wrapper canned Scenario.url
                      (Scenario.holding (lit "hello") (Some 7) [lit "world"])))
          !! k'
        = store (Scenario.holding (lit "hello") (Some 7) [lit "world"]) !! k')
  /\ exists kc,
       count_key Scenario.url = Some kc
       /\ INCRBY kc 1 (store (Scenario.holding (lit "hello") (Some 7) [lit "world"]))
          = inr (0 + 1,
                 store (snd (wrapper canned Scenario.url
                               (Scenario.holding (lit "hello") (Some 7)
                                  [lit "world"])))).
Proof.
  apply (C8_hit_writes_only_the_counter canned Scenario.url
           (Scenario.holding (lit "hello") (Some 7) [lit "world"])
           0 Scenario.key 104%N (lit "ello") (Some 7));
    vm_compute; reflexivity.
Defined.

(** ** C9: the key is an MD5 hex digest *)

(** C9, as stated, fails on a [str] that holds a lone surrogate, such as the
    code point U+DC80 that Python puts in place of an undecodable byte of a
    command-line argument: no 32 characters come back, the call raises. *)
Lemma C9_escaped_byte_has_no_key :
  sanitize_url (lit "http://example.com/" ++ [0xDC80%N])
  = Raise UnicodeEncodeError.
Proof. reflexivity. Qed.

(** C9, amended: for every [str] of Unicode scalar values, [sanitize_url]
    returns the MD5 hex digest of the UTF-8 encoding of the text: exactly 32
    characters, each one of [0-9a-f]. *)
Theorem C9_key_is_md5_hexdigest (url : str) :
  forallb scalar url = true ->
  exists b,
    utf8_encode url = Some b
    /\ sanitize_url url = Ok (MD5.hexdigest b)
    /\ length (MD5.hexdigest b) = 32%nat
    /\ forallb MD5.is_hex (MD5.hexdigest b) = true.
Proof.
  intros H. apply utf8_encode_scalar in H as [b Hb]. exists b.
  unfold sanitize_url. rewrite Hb.
  split; [reflexivity|]. split; [reflexivity|].
  split; [apply hexdigest_length|apply hexdigest_hex].
Qed.

Lemma C9_key_is_md5_hexdigest_example :
  exists b,
    utf8_encode [104; 233; 8364; 128512]%N = Some b
    /\ sanitize_url [104; 233; 8364; 128512]%N = Ok (MD5.hexdigest b)
    /\ length (MD5.hexdigest b) = 32%nat
    /\ forallb MD5.is_hex (MD5.hexdigest b) = true.
Proof.
  apply (C9_key_is_md5_hexdigest [104; 233; 8364; 128512]%N).
  vm_compute. reflexivity.
Defined.

(** ** C10: a stored page comes back as it was fetched *)

(** C10: for every URL [u] and every non-empty text [s] that the decorated
    function returns on a miss, the call stores the UTF-8 encoding [v] of
    [s] under the cache key; decoding [v] gives [s] back; and any later call
    for [u], made while the server still holds [v] under that key (whatever
    is left of its time to live) and the counter can be incremented,
    returns [s] without calling the decorated function. *)
Theorem C10_stored_page_round_trip {Net} (fn fn' : @callable Net) (u : str)
    (w : world) (n : Z) (k : bytes) (s : str) (v : bytes) (nt : Net) :
  counter (store w) u = Some n -> n < INT64_MAX ->
  cache_key u = Some k ->
  store w !! k = None ->
  fn u (net w) = (Ok s, nt) ->
  s <> [] ->
  utf8_encode s = Some v ->
  store (snd (wrapper fn u w)) !! k
    = Some (Entry (String v) (Some CACHE_EXPIRATION))
  /\ utf8_decode v = Some s
  /\ forall (w2 : world) (m : Z) (t : option Z),
       counter (store w2) u = Some m -> m < INT64_MAX ->
       store w2 !! k = Some (Entry (String v) t) ->
       fst (wrapper fn' u w2) = Ok s
       /\ fetched (snd (wrapper fn' u w2)) = fetched w2.
Proof.
  intros Hc Hn Hk Hv Hf Hne Hs.
  destruct (utf8_encode u) as [b|] eqn:Hb;
    [|rewrite cache_key_encode, Hb in Hk; discriminate].
  rewrite (cache_key_digest _ _ _ Hb Hk) in *.
  destruct (wrapper_miss fn u w n b s v nt Hc Hn Hb Hv Hf Hs) as [tc ->].
  cbn [snd store]. split; [apply lookup_insert_eq|].
  split; [exact (utf8_decode_encode _ _ Hs)|].
  intros w2 m t Hc2 Hm Hv2.
  destruct v as [|c page]; [destruct Hne; apply utf8_encode_nil_inv, Hs|].
  destruct (wrapper_hit fn' u w2 m b c page t Hc2 Hm Hb Hv2) as [tc' ->].
  cbn [fst snd fetched]. rewrite (utf8_decode_encode _ _ Hs). split; reflexivity.
Qed.

Lemma C10_stored_page_round_trip_example :
  store (snd (wrapper canned Scenario.url
                (Scenario.fresh [[104; 233; 8364; 128512]%N])))
    !! Scenario.key
  = Some (Entry (String [104; 195; 169; 226; 130; 172; 240; 159; 152; 128]%N)
                (Some CACHE_EXPIRATION))
  /\ utf8_decode [104; 195; 169; 226; 130; 172; 240; 159; 152; 128]%N
     = Some [104; 233; 8364; 128512]%N
  /\ forall (w2 : world) (m : Z) (t : option Z),
       counter (store w2) Scenario.url = Some m -> m < INT64_MAX ->
       store w2 !! Scenario.key
       = Some (Entry (String [104; 195; 169; 226; 130; 172; 240; 159; 152; 128]%N) t) ->
       fst (wrapper canned Scenario.url w2) = Ok [104; 233; 8364; 128512]%N
       /\ fetched (snd (wrapper canned Scenario.url w2)) = fetched w2.
Proof.
  apply (C10_stored_page_round_trip canned canned Scenario.url
           (Scenario.fresh [[104; 233; 8364; 128512]%N]) 0 Scenario.key
           [104; 233; 8364; 128512]%N
           [104; 195; 169; 226; 130; 172; 240; 159; 152; 128]%N []);
    try (vm_compute; reflexivity).
  discriminate.
Defined.

(** * Further properties of the wrapper *)

(** ** Every path of a call *)

Lemma INCRBY_insert (k : bytes) (a : Z) (d d1 : db) (n : Z) :
  INCRBY k a d = inr (n, d1) ->
  exists t, d1 = <[k := Entry (String (int_bytes n)) t]> d
            /\ INT64_MIN <= n <= INT64_MAX.
Proof.
  unfold INCRBY. intros H.
  repeat match type of H with
  | match ?x with _ => _ end = _ => destruct x eqn:?; try discriminate
  end; injection H as <- <-;
    match goal with
    | Hr : (_ && _) = true |- _ =>
      apply andb_true_iff in Hr as [H1 H2]; apply Z.leb_le in H1, H2
    end; eauto.
Qed.

(** A call either raises at its first statement and changes nothing, or the
    URL is encodable and the increment has gone through. *)
Lemma wrapper_entry {Net} (fn : @callable Net) (u : str) (w : world) :
  (exists e, wrapper fn u w = (Raise e, w))
  \/ (exists b n d1,
        utf8_encode u = Some b
        /\ INCRBY (lit "count:" ++ b) 1 (store w) = inr (n, d1)).
Proof.
  pose proof (count_key_encode u) as Hc. unfold count_key in Hc.
  destruct (utf8_encode u) as [b|] eqn:Hb; cbn [fmap option_fmap option_map] in Hc.
  - destruct (INCRBY (lit "count:" ++ b) 1 (store w)) as [e|[n d1]] eqn:Hi.
    + left. exists (ResponseError e).
      unfold wrapper, redis_incr, bind, encode_arg, command, ret, raise.
      rewrite Hc, Hi. reflexivity.
    + right. eauto.
  - left. exists UnicodeEncodeError.
    unfold wrapper, redis_incr, bind, encode_arg, command, ret, raise.
    rewrite Hc. reflexivity.
Qed.

Lemma GET_inv (d : db) (k v : bytes) :
  GET k d = inr (Some v) -> exists t, d !! k = Some (Entry (String v) t).
Proof.
  unfold GET. destruct (d !! k) as [[[s|] t]|]; cbn; try discriminate.
  intros [= <-]. eauto.
Qed.

(** The store after a call: the one before it, with the counter key written
    and, on some paths, the cache key written too. *)
Lemma wrapper_store {Net} (fn : @callable Net) (u : str) (w : world) :
  store (snd (wrapper fn u w)) = store w
  \/ exists b n t,
       utf8_encode u = Some b
       /\ INT64_MIN <= n <= INT64_MAX
       /\ (store (snd (wrapper fn u w))
           = <[lit "count:" ++ b := Entry (String (int_bytes n)) t]> (store w)
           \/ exists e,
                store (snd (wrapper fn u w))
                = <[MD5.hexdigest b := e]>
                    (<[lit "count:" ++ b := Entry (String (int_bytes n)) t]>
                       (store w))).
Proof.
  destruct (wrapper_entry fn u w) as [[e ->]|(b & n & d1 & Hb & Hi)];
    [left; reflexivity|right].
  destruct (INCRBY_insert _ _ _ _ _ Hi) as (t & -> & Hn).
  exists b, n, t. split; [exact Hb|]. split; [exact Hn|].
  rewrite (wrapper_steps fn u w b _ _ Hb Hi).
  destruct (GET (MD5.hexdigest b) (store w)) as [e|[[|c page]|]];
    try (left; reflexivity);
    destruct (fn u (net w)) as [[s|e] nt]; try (left; reflexivity);
    destruct (utf8_encode s); try (left; reflexivity);
    right; eexists; reflexivity.
Qed.

(** A call for [u] leaves alone every key that is neither the counter key
    nor the cache key of [u]. *)
Lemma wrapper_frame {Net} (fn : @callable Net) (u : str) (w : world)
    (k : bytes) :
  count_key u <> Some k -> cache_key u <> Some k ->
  store (snd (wrapper fn u w)) !! k = store w !! k.
Proof.
  intros Hc Hk.
  destruct (wrapper_store fn u w) as [->|(b & n & t & Hb & _ & H)];
    [reflexivity|].
  rewrite count_key_encode, Hb in Hc. rewrite cache_key_encode, Hb in Hk.
  cbn [fmap option_fmap option_map] in Hc, Hk.
  assert (Hc' : lit "count:" ++ b <> k) by (intros <-; apply Hc; reflexivity).
  assert (Hk' : MD5.hexdigest b <> k) by (intros <-; apply Hk; reflexivity).
  destruct H as [->|[e ->]].
  - apply lookup_insert_ne, Hc'.
  - rewrite !lookup_insert_ne by assumption. reflexivity.
Qed.

(** Different URLs are counted under different keys. *)
Lemma count_key_inj (u v : str) (k : bytes) :
  count_key u = Some k -> count_key v = Some k -> u = v.
Proof.
  rewrite !count_key_encode.
  destruct (utf8_encode u) as [bu|] eqn:Hu; [|discriminate].
  destruct (utf8_encode v) as [bv|] eqn:Hv; [|discriminate].
  cbn [fmap option_fmap option_map]. intros Eu Ev.
  assert (E : lit "count:" ++ bu = lit "count:" ++ bv)
    by (apply (inj Some); etrans; [exact Eu|symmetry; exact Ev]).
  apply app_inv_head in E. subst bv.
  apply utf8_decode_encode in Hu, Hv. congruence.
Qed.

Lemma cache_key_not_count_key (u v : str) (k : bytes) :
  count_key u = Some k -> cache_key v <> Some k.
Proof.
  rewrite count_key_encode, cache_key_encode.
  destruct (utf8_encode u) as [bu|]; [|discriminate].
  destruct (utf8_encode v) as [bv|]; [|discriminate].
  cbn [fmap option_fmap option_map]. intros Hu Hv.
  apply (count_name_not_digest bu bv).
  apply (inj Some). etrans; [exact Hu|symmetry; exact Hv].
Qed.

(** A call for another URL does not change the reading of a counter. *)
Lemma counter_other {Net} (fn : @callable Net) (u v : str) (w : world) :
  u <> v -> counter (store (snd (wrapper fn v w))) u = counter (store w) u.
Proof.
  intros Hne. unfold counter. destruct (count_key u) as [ku|] eqn:Hu; [|reflexivity].
  rewrite (wrapper_frame fn v w ku); [reflexivity| |].
  - intros Hv. apply Hne. exact (count_key_inj _ _ _ Hu Hv).
  - exact (cache_key_not_count_key _ _ _ Hu).
Qed.

(** A call for the URL itself moves the reading from [n] to [n + 1]. *)
Lemma counter_same {Net} (fn : @callable Net) (u : str) (w : world) (n : Z) :
  counter (store w) u = Some n -> n < INT64_MAX ->
  counter (store (snd (wrapper fn u w))) u = Some (n + 1).
Proof.
  intros Hc Hn. pose proof (counted_range _ _ _ Hc Hn) as Hr.
  destruct (counted _ _ _ Hc Hn) as (b & tc & Hb & Hi).
  assert (Hk : count_key u = Some (lit "count:" ++ b))
    by (rewrite count_key_encode, Hb; reflexivity).
  rewrite (wrapper_steps fn u w b _ _ Hb Hi).
  destruct (GET (MD5.hexdigest b) (store w)) as [?|[[|? ?]|]];
    try (cbn [snd store]; apply counter_insert; assumption);
    destruct (fn u (net w)) as [[s|?] ?];
    try (cbn [snd store]; apply counter_insert; assumption);
    destruct (utf8_encode s); cbn [snd store];
    solve [apply counter_insert; assumption
          |apply counter_after_store; assumption].
Qed.

(** ** X1: a call whose increment fails *)

(** X1: when the counter of [u] has no reading (the URL holds a lone
    surrogate, or the counter key holds something that is not the decimal
    text of a 64-bit integer) or reads the largest 64-bit integer, the call
    raises at its first statement and the world is as before: the cache is
    not looked up, the decorated function is not called, nothing is
    written. *)
Theorem X1_failed_increment_aborts_call {Net} (fn : @callable Net) (u : str)
    (w : world) :
  counter (store w) u = None \/ counter (store w) u = Some INT64_MAX ->
  exists e, wrapper fn u w = (Raise e, w).
Proof.
  intros [H|H].
  - exact (call_without_counter fn u w H).
  - rewrite (call_at_maximum fn u w H). eauto.
Qed.

Lemma X1_failed_increment_aborts_call_example :
  exists e,
    wrapper canned Scenario.url
      (World {[ lit "count:http://example.com" := Entry (String (lit "abc")) None ]}
             [lit "hello"] [])
    = (Raise e,
       World {[ lit "count:http://example.com" := Entry (String (lit "abc")) None ]}
             [lit "hello"] []).
Proof.
  apply (X1_failed_increment_aborts_call canned Scenario.url
           (World {[ lit "count:http://example.com"
                     := Entry (String (lit "abc")) None ]}
                  [lit "hello"] [])).
  left. vm_compute. reflexivity.
Defined.

(** ** X2: a cached page that is empty *)

(** X2: when the server holds the empty string under the cache key of [u],
    the call behaves as on a miss: it calls the decorated function with [u],
    replaces the entry by the encoding of the reply with a time to live of
    [CACHE_EXPIRATION], and returns the reply. *)
Theorem X2_empty_cached_page_is_refetched {Net} (fn : @callable Net)
    (u : str) (w : world) (n : Z) (k : bytes) (t : option Z) (s : str)
    (v : bytes) (nt : Net) :
  counter (store w) u = Some n -> n < INT64_MAX ->
  cache_key u = Some k ->
  store w !! k = Some (Entry (String []) t) ->
  fn u (net w) = (Ok s, nt) ->
  utf8_encode s = Some v ->
  fst (wrapper fn u w) = Ok s
  /\ fetched (snd (wrapper fn u w)) = fetched w ++ [u]
  /\ net (snd (wrapper fn u w)) = nt
  /\ store (snd (wrapper fn u w)) !! k
     = Some (Entry (String v) (Some CACHE_EXPIRATION)).
Proof.
  intros Hc Hn Hk Hv Hf Hs.
  destruct (counted _ _ _ Hc Hn) as (b & tc & Hb & Hi).
  rewrite (cache_key_digest _ _ _ Hb Hk) in *.
  rewrite (wrapper_steps fn u w b _ _ Hb Hi), (GET_string _ _ _ _ Hv), Hf, Hs.
  cbn [fst snd store net fetched].
  split; [reflexivity|]. split; [reflexivity|]. split; [reflexivity|].
  apply lookup_insert_eq.
Qed.

Lemma X2_empty_cached_page_is_refetched_example :
  fst (wrapper canned Scenario.url (Scenario.holding [] (Some 7) [lit "hello"]))
    = Ok (lit "hello")
  /\ fetched (snd (wrapper canned Scenario.url
                     (Scenario.holding [] (Some 7) [lit "hello"])))
     = fetched (Scenario.holding [] (Some 7) [lit "hello"]) ++ [Scenario.url]
  /\ net (snd (wrapper canned Scenario.url
                 (Scenario.holding [] (Some 7) [lit "hello"])))
     = []
  /\ store (snd (wrapper canned Scenario.url
                   (Scenario.holding [] (Some 7) [lit "hello"])))
       !! Scenario.key
     = Some (Entry (String (lit "hello")) (Some CACHE_EXPIRATION)).
Proof.
  apply (X2_empty_cached_page_is_refetched canned Scenario.url
           (Scenario.holding [] (Some 7) [lit "hello"]) 0 Scenario.key
           (Some 7) (lit "hello") (lit "hello") []);
    vm_compute; reflexivity.
Defined.

(** ** X3: a reply that cannot be stored *)

(** X3: on a miss, when the decorated function returns text that UTF-8
    cannot encode (it holds a lone surrogate), [setex] raises
    [UnicodeEncodeError] and so does the call: the reply is not returned,
    the cache key is still not in the server, the decorated function has
    been called, and the counter reads [n + 1]. *)
Theorem X3_unencodable_reply_is_raised_not_cached {Net} (fn : @callable Net)
    (u : str) (w : world) (n : Z) (k : bytes) (s : str) (nt : Net) :
  counter (store w) u = Some n -> n < INT64_MAX ->
  cache_key u = Some k ->
  store w !! k = None ->
  fn u (net w) = (Ok s, nt) ->
  utf8_encode s = None ->
  fst (wrapper fn u w) = Raise UnicodeEncodeError
  /\ fetched (snd (wrapper fn u w)) = fetched w ++ [u]
  /\ store (snd (wrapper fn u w)) !! k = None
  /\ counter (store (snd (wrapper fn u w))) u = Some (n + 1).
Proof.
  intros Hc Hn Hk Hv Hf Hs. pose proof (counted_range _ _ _ Hc Hn) as Hr.
  destruct (counted _ _ _ Hc Hn) as (b & tc & Hb & Hi).
  assert (Hkc : count_key u = Some (lit "count:" ++ b))
    by (rewrite count_key_encode, Hb; reflexivity).
  rewrite (cache_key_digest _ _ _ Hb Hk) in *.
  rewrite (wrapper_steps fn u w b _ _ Hb Hi), (GET_absent _ _ Hv), Hf, Hs.
  cbn [fst snd store net fetched].
  split; [reflexivity|]. split; [reflexivity|]. split.
  - rewrite lookup_insert_ne; [exact Hv|].
    intros E. exact (count_name_not_digest _ _ E).
  - apply counter_insert; assumption.
Qed.

Lemma X3_unencodable_reply_is_raised_not_cached_example :
  fst (wrapper canned Scenario.url (Scenario.fresh [[0xD800%N]]))
    = Raise UnicodeEncodeError
  /\ fetched (snd (wrapper canned Scenario.url (Scenario.fresh [[0xD800%N]])))
     = fetched (Scenario.fresh [[0xD800%N]]) ++ [Scenario.url]
  /\ store (snd (wrapper canned Scenario.url (Scenario.fresh [[0xD800%N]])))
       !! Scenario.key
     = None
  /\ counter (store (snd (wrapper canned Scenario.url
                            (Scenario.fresh [[0xD800%N]]))))
             Scenario.url
     = Some (0 + 1).
Proof.
  apply (X3_unencodable_reply_is_raised_not_cached canned Scenario.url
           (Scenario.fresh [[0xD800%N]]) 0 Scenario.key [0xD800%N] []);
    vm_compute; reflexivity.
Defined.

(** ** X4: a cache key that holds no string *)

(** X4: when the cache key of [u] holds a value that is no string (a list, a
    hash, ...), GET is refused and the call raises the server's error: the
    decorated function is not called, the entry is as before, and the
    counter reads [n + 1]. *)
Theorem X4_wrong_type_under_cache_key {Net} (fn : @callable Net) (u : str)
    (w : world) (n : Z) (k : bytes) (t : option Z) :
  counter (store w) u = Some n -> n < INT64_MAX ->
  cache_key u = Some k ->
  store w !! k = Some (Entry NonString t) ->
  fst (wrapper fn u w) = Raise (ResponseError WrongType)
  /\ fetched (snd (wrapper fn u w)) = fetched w
  /\ store (snd (wrapper fn u w)) !! k = Some (Entry NonString t)
  /\ counter (store (snd (wrapper fn u w))) u = Some (n + 1).
Proof.
  intros Hc Hn Hk Hv. pose proof (counted_range _ _ _ Hc Hn) as Hr.
  destruct (counted _ _ _ Hc Hn) as (b & tc & Hb & Hi).
  assert (Hkc : count_key u = Some (lit "count:" ++ b))
    by (rewrite count_key_encode, Hb; reflexivity).
  rewrite (cache_key_digest _ _ _ Hb Hk) in *.
  assert (Hg : GET (MD5.hexdigest b) (store w) = inl WrongType)
    by (unfold GET; rewrite Hv; reflexivity).
  rewrite (wrapper_steps fn u w b _ _ Hb Hi), Hg.
  cbn [fst snd store net fetched].
  split; [reflexivity|]. split; [reflexivity|]. split.
  - rewrite lookup_insert_ne; [exact Hv|].
    intros E. exact (count_name_not_digest _ _ E).
  - apply counter_insert; assumption.
Qed.

Lemma X4_wrong_type_under_cache_key_example :
  fst (wrapper canned Scenario.url
         (World {[ Scenario.key := Entry NonString None ]} [lit "hello"] []))
    = Raise (ResponseError WrongType)
  /\ fetched (snd (wrapper canned Scenario.url
                     (World {[ Scenario.key := Entry NonString None ]}
                            [lit "hello"] [])))
     = []
  /\ store (snd (wrapper canned Scenario.url
                   (World {[ Scenario.key := Entry NonString None ]}
                          [lit "hello"] [])))
       !! Scenario.key
     = Some (Entry NonString None)
  /\ counter (store (snd (wrapper canned Scenario.url
                            (World {[ Scenario.key := Entry NonString None ]}
                                   [lit "hello"] []))))
             Scenario.url
     = Some (0 + 1).
Proof.
  apply (X4_wrong_type_under_cache_key canned Scenario.url
           (World {[ Scenario.key := Entry NonString None ]} [lit "hello"] [])
           0 Scenario.key None);
    vm_compute; reflexivity.
Defined.

(** ** X5: the keys a call can write *)

(** X5: whatever happens in a call for [u] (hit, miss, exception), every key
    of the server other than the counter key and the cache key of [u] holds
    after the call what it held before. *)
Theorem X5_call_writes_only_its_two_keys {Net} (fn : @callable Net) (u : str)
    (w : world) (k : bytes) :
  count_key u <> Some k -> cache_key u <> Some k ->
  store (snd (wrapper fn u w)) !! k = store w !! k.
Proof.
  intros Hc Hk.
  destruct (wrapper_store fn u w) as [->|(b & n & t & Hb & _ & H)];
    [reflexivity|].
  rewrite count_key_encode, Hb in Hc. rewrite cache_key_encode, Hb in Hk.
  assert (Hc' : lit "count:" ++ b <> k) by (intros <-; apply Hc; reflexivity).
  assert (Hk' : MD5.hexdigest b <> k) by (intros <-; apply Hk; reflexivity).
  destruct H as [->|[e ->]].
  - apply lookup_insert_ne, Hc'.
  - rewrite !lookup_insert_ne by assumption. reflexivity.
Qed.

Lemma X5_call_writes_only_its_two_keys_example :
  store (snd (wrapper canned Scenario.url
                (World {[ lit "session" := Entry (String (lit "x")) (Some 3) ]}
                       [lit "hello"] [])))
    !! lit "session"
  = store (World {[ lit "session" := Entry (String (lit "x")) (Some 3) ]}
                 [lit "hello"] [])
      !! lit "session".
Proof.
  apply (X5_call_writes_only_its_two_keys canned Scenario.url
           (World {[ lit "session" := Entry (String (lit "x")) (Some 3) ]}
                  [lit "hello"] [])
           (lit "session"));
    vm_compute; discriminate.
Defined.

(** ** X6: the counters of other URLs *)

(** X6: a call for the URL [v] does not change the reading of the counter of
    any other URL [u], whatever the call does. *)
Theorem X6_other_counters_unchanged {Net} (fn : @callable Net) (u v : str)
    (w : world) :
  u <> v ->
  counter (store (snd (wrapper fn v w))) u = counter (store w) u.
Proof.
  intros Hne. unfold counter.
  destruct (count_key u) as [ku|] eqn:Hu; [|reflexivity].
  rewrite (wrapper_frame fn v w ku); [reflexivity| |].
  - intros Hv. apply Hne. exact (count_key_inj _ _ _ Hu Hv).
  - exact (cache_key_not_count_key _ _ _ Hu).
Qed.

Lemma X6_other_counters_unchanged_example :
  counter (store (snd (wrapper canned Scenario.url (Scenario.fresh [lit "hello"]))))
          (lit "http://example.org")
  = counter (store (Scenario.fresh [lit "hello"])) (lit "http://example.org").
Proof.
  apply (X6_other_counters_unchanged canned (lit "http://example.org")
           Scenario.url (Scenario.fresh [lit "hello"])).
  vm_compute. discriminate.
Defined.

(** ** X7: one counter key per URL *)

(** X7: two URLs that are counted under the same key of the server are the
    same URL: the counter names ["count:" + url], once encoded, do not
    collide. *)
Theorem X7_counter_keys_do_not_collide (u v : str) (k : bytes) :
  count_key u = Some k -> count_key v = Some k -> u = v.
Proof.
  rewrite !count_key_encode.
  destruct (utf8_encode u) as [bu|] eqn:Hu; [|discriminate].
  destruct (utf8_encode v) as [bv|] eqn:Hv; [|discriminate].
  cbn [fmap option_fmap option_map]. intros Eu Ev.
  assert (E : lit "count:" ++ bu = lit "count:" ++ bv)
    by (apply (inj Some); etrans; [exact Eu|symmetry; exact Ev]).
  apply app_inv_head in E. subst bv.
  apply utf8_decode_encode in Hu, Hv. congruence.
Qed.

Lemma X7_counter_keys_do_not_collide_example :
  lit "http://example.com" = Scenario.url.
Proof.
  apply (X7_counter_keys_do_not_collide (lit "http://example.com") Scenario.url
           (lit "count:http://example.com"));
    vm_compute; reflexivity.
Defined.

(** ** X8: how often the decorated function is called *)

(** X8: a call for [u] calls the decorated function at most once, and with
    the argument [u]: either the record of its calls and the outside world
    are as before, or the record has one more entry [u] and the outside
    world is the one that this single call of the function left. *)
Theorem X8_at_most_one_fetch {Net} (fn : @callable Net) (u : str) (w : world) :
  (fetched (snd (wrapper fn u w)) = fetched w
   /\ net (snd (wrapper fn u w)) = net w)
  \/ (fetched (snd (wrapper fn u w)) = fetched w ++ [u]
      /\ net (snd (wrapper fn u w)) = snd (fn u (net w))).
Proof.
  destruct (wrapper_entry fn u w) as [[e ->]|(b & n & d1 & Hb & Hi)];
    [left; split; reflexivity|].
  rewrite (wrapper_steps fn u w b _ _ Hb Hi).
  destruct (GET (MD5.hexdigest b) (store w)) as [e|[[|c page]|]];
    try (left; split; reflexivity);
    destruct (fn u (net w)) as [[s|e] nt];
    try (right; split; reflexivity);
    destruct (utf8_encode s); right; split; reflexivity.
Qed.

(** ** X9: what a call returns is what the cache holds *)

(** X9: when a call for [u] returns the text [s], the server holds after the
    call, under the cache key of [u], a string whose UTF-8 decoding is
    [s]. *)
Theorem X9_returned_page_is_cached {Net} (fn : @callable Net) (u : str)
    (w : world) (s : str) :
  fst (wrapper fn u w) = Ok s ->
  exists k v t,
    cache_key u = Some k
    /\ store (snd (wrapper fn u w)) !! k = Some (Entry (String v) t)
    /\ utf8_decode v = Some s.
Proof.
  destruct (wrapper_entry fn u w) as [[e ->]|(b & n & d1 & Hb & Hi)];
    [discriminate|].
  assert (Hk : cache_key u = Some (MD5.hexdigest b))
    by (rewrite cache_key_encode, Hb; reflexivity).
  assert (Hd : d1 !! MD5.hexdigest b = store w !! MD5.hexdigest b)
    by (apply (INCRBY_lookup_ne _ _ _ _ _ _ Hi), digest_not_count_name).
  rewrite (wrapper_steps fn u w b _ _ Hb Hi).
  destruct (GET (MD5.hexdigest b) (store w)) as [e|[[|c page]|]] eqn:Hg;
    [discriminate| | |].
  - destruct (fn u (net w)) as [[s'|e] nt]; [|discriminate].
    destruct (utf8_encode s') as [v|] eqn:Hs; [|discriminate].
    cbn [fst snd store]. intros [= <-].
    exists (MD5.hexdigest b), v, (Some CACHE_EXPIRATION).
    split; [exact Hk|]. split; [apply lookup_insert_eq|].
    exact (utf8_decode_encode _ _ Hs).
  - destruct (utf8_decode (c :: page)) as [s'|] eqn:Hs; [|discriminate].
    cbn [fst snd store]. intros [= <-].
    destruct (GET_inv _ _ _ Hg) as [t Ht].
    exists (MD5.hexdigest b), (c :: page), t.
    split; [exact Hk|]. split; [exact (eq_trans Hd Ht)|exact Hs].
  - destruct (fn u (net w)) as [[s'|e] nt]; [|discriminate].
    destruct (utf8_encode s') as [v|] eqn:Hs; [|discriminate].
    cbn [fst snd store]. intros [= <-].
    exists (MD5.hexdigest b), v, (Some CACHE_EXPIRATION).
    split; [exact Hk|]. split; [apply lookup_insert_eq|].
    exact (utf8_decode_encode _ _ Hs).
Qed.

Lemma X9_returned_page_is_cached_example :
  exists k v t,
    cache_key Scenario.url = Some k
    /\ store (snd (wrapper canned Scenario.url (Scenario.fresh [lit "hello"])))
         !! k
       = Some (Entry (String v) t)
    /\ utf8_decode v = Some (lit "hello").
Proof.
  apply (X9_returned_page_is_cached canned Scenario.url
           (Scenario.fresh [lit "hello"]) (lit "hello")).
  vm_compute. reflexivity.
Defined.

(** ** X10: a call removes nothing *)

(** X10: every key that the server holds before a call is still held after
    it, whatever the call does: the wrapper has no path that deletes. *)
Theorem X10_no_key_is_removed {Net} (fn : @callable Net) (u : str)
    (w : world) (k : bytes) :
  is_Some (store w !! k) -> is_Some (store (snd (wrapper fn u w)) !! k).
Proof.
  intros H.
  assert (Hi : forall (d : db) (i : bytes) (e : entry),
            is_Some (d !! k) -> is_Some (<[i := e]> d !! k)).
  { intros d i e Hd. apply lookup_insert_is_Some.
    destruct (decide (i = k)); [left|right]; auto. }
  destruct (wrapper_store fn u w) as [->|(b & n & t & _ & _ & [->|[e ->]])];
    [exact H| |]; repeat apply Hi; exact H.
Qed.

Lemma X10_no_key_is_removed_example :
  is_Some (store (snd (wrapper canned Scenario.url
                         (Scenario.holding [] (Some 7) [])))
             !! Scenario.key).
Proof.
  apply (X10_no_key_is_removed canned Scenario.url
           (Scenario.holding [] (Some 7) []) Scenario.key).
  vm_compute. eauto.
Defined.

(** ** X11, X12: the life of a cached page *)

(** As time passes a counter keeps its reading, or, if its key had a time to
    live and that is over, starts again from 0. *)
Lemma counter_elapse (d : db) (u : str) (n dt : Z) :
  counter d u = Some n ->
  counter (elapse dt d) u = Some n \/ counter (elapse dt d) u = Some 0.
Proof.
  unfold counter. destruct (count_key u) as [kc|]; [|discriminate].
  rewrite elapse_lookup.
  match goal with |- context [?x ≫= age dt] => destruct x as [[v [t|]]|] end;
    cbn; unfold age; cbn; [destruct (dt <=? t); cbn|..]; auto.
Qed.

(** X11: after a miss has stored the non-empty page [s], a call made [dt]
    seconds later, with [dt] at most [CACHE_EXPIRATION], returns [s] without
    calling the decorated function, and does not renew the entry: what is
    left of its time to live is [CACHE_EXPIRATION - dt], also after that
    call. *)
Theorem X11_page_served_until_expiry {Net} (fn fn' : @callable Net) (u : str)
    (w : world) (n : Z) (k : bytes) (s : str) (v : bytes) (nt : Net) (dt : Z) :
  counter (store w) u = Some n -> n + 1 < INT64_MAX ->
  cache_key u = Some k ->
  store w !! k = None ->
  fn u (net w) = (Ok s, nt) ->
  s <> [] ->
  utf8_encode s = Some v ->
  0 <= dt <= CACHE_EXPIRATION ->
  fst (wrapper fn' u (sleep dt (snd (wrapper fn u w)))) = Ok s
  /\ fetched (snd (wrapper fn' u (sleep dt (snd (wrapper fn u w)))))
     = fetched w ++ [u]
  /\ store (snd (wrapper fn' u (sleep dt (snd (wrapper fn u w))))) !! k
     = Some (Entry (String v) (Some (CACHE_EXPIRATION - dt))).
Proof.
  intros Hc Hn Hk Hv Hf Hne Hs Hdt.
  assert (Hn' : n < INT64_MAX) by lia.
  pose proof (counted_range _ _ _ Hc Hn') as Hr.
  destruct (utf8_encode u) as [b|] eqn:Hb;
    [|rewrite cache_key_encode, Hb in Hk; discriminate].
  rewrite (cache_key_digest _ _ _ Hb Hk) in *.
  destruct (wrapper_miss fn u w n b s v nt Hc Hn' Hb Hv Hf Hs) as [tc ->].
  cbn [snd]. unfold sleep at 1 2 3. cbn [store net fetched].
  set (d1 := <[lit "count:" ++ b := Entry (String (int_bytes (n + 1))) tc]> (store w)).
  set (w2 := World _ nt (fetched w ++ [u])).
  assert (Hl : store w2 !! MD5.hexdigest b
               = Some (Entry (String v) (Some (CACHE_EXPIRATION - dt))))
    by exact (stored_page_lives d1 _ v dt Hdt).
  assert (Hc2 : exists m, counter (store w2) u = Some m /\ m < INT64_MAX).
  { destruct (counter_elapse _ u (n + 1) dt
                (counter_after_store (store w) u b (n + 1) tc
                   (Entry (String v) (Some CACHE_EXPIRATION)) Hb Hr))
      as [H|H]; eexists; (split; [exact H|]); [exact Hn|reflexivity]. }
  destruct Hc2 as (m & Hm & Hm').
  destruct v as [|c page]; [destruct Hne; apply utf8_encode_nil_inv, Hs|].
  destruct (wrapper_hit fn' u w2 m b c page _ Hm Hm' Hb Hl) as [tc' ->].
  cbn [fst snd store fetched]. rewrite (utf8_decode_encode _ _ Hs).
  split; [reflexivity|]. split; [reflexivity|].
  rewrite lookup_insert_ne by (intros E; exact (count_name_not_digest _ _ E)).
  exact Hl.
Qed.

Lemma X11_page_served_until_expiry_example :
  fst (wrapper canned Scenario.url
         (sleep 4 (snd (wrapper canned Scenario.url
                          (Scenario.fresh [lit "hello"; lit "world"])))))
    = Ok (lit "hello")
  /\ fetched (snd (wrapper canned Scenario.url
                     (sleep 4 (snd (wrapper canned Scenario.url
                                      (Scenario.fresh [lit "hello"; lit "world"]))))))
     = fetched (Scenario.fresh [lit "hello"; lit "world"]) ++ [Scenario.url]
  /\ store (snd (wrapper canned Scenario.url
                   (sleep 4 (snd (wrapper canned Scenario.url
                                    (Scenario.fresh [lit "hello"; lit "world"]))))))
       !! Scenario.key
     = Some (Entry (String (lit "hello")) (Some (CACHE_EXPIRATION - 4))).
Proof.
  apply (X11_page_served_until_expiry canned canned Scenario.url
           (Scenario.fresh [lit "hello"; lit "world"]) 0 Scenario.key
           (lit "hello") (lit "hello") [lit "world"] 4);
    try (vm_compute; reflexivity).
  - discriminate.
  - vm_compute. split; discriminate.
Defined.

(** X12: after a miss has stored a page, a call made more than
    [CACHE_EXPIRATION] seconds later finds the cache key gone: it calls the
    decorated function again, stores the new reply with a fresh time to live
    and returns it. *)
Theorem X12_page_refetched_after_expiry {Net} (fn fn' : @callable Net)
    (u : str) (w : world) (n : Z) (k : bytes) (s s' : str) (v v' : bytes)
    (nt nt' : Net) (dt : Z) :
  counter (store w) u = Some n -> n + 1 < INT64_MAX ->
  cache_key u = Some k ->
  store w !! k = None ->
  fn u (net w) = (Ok s, nt) ->
  utf8_encode s = Some v ->
  CACHE_EXPIRATION < dt ->
  fn' u nt = (Ok s', nt') ->
  utf8_encode s' = Some v' ->
  fst (wrapper fn' u (sleep dt (snd (wrapper fn u w)))) = Ok s'
  /\ fetched (snd (wrapper fn' u (sleep dt (snd (wrapper fn u w)))))
     = fetched w ++ [u; u]
  /\ store (snd (wrapper fn' u (sleep dt (snd (wrapper fn u w))))) !! k
     = Some (Entry (String v') (Some CACHE_EXPIRATION)).
Proof.
  intros Hc Hn Hk Hv Hf Hs Hdt Hf' Hs'.
  assert (Hn' : n < INT64_MAX) by lia.
  pose proof (counted_range _ _ _ Hc Hn') as Hr.
  destruct (utf8_encode u) as [b|] eqn:Hb;
    [|rewrite cache_key_encode, Hb in Hk; discriminate].
  rewrite (cache_key_digest _ _ _ Hb Hk) in *.
  destruct (wrapper_miss fn u w n b s v nt Hc Hn' Hb Hv Hf Hs) as [tc ->].
  cbn [snd]. unfold sleep at 1 2 3. cbn [store net fetched].
  set (d1 := <[lit "count:" ++ b := Entry (String (int_bytes (n + 1))) tc]> (store w)).
  set (w2 := World _ nt (fetched w ++ [u])).
  assert (Hl : store w2 !! MD5.hexdigest b = None)
    by exact (stored_page_expires d1 _ v dt Hdt).
  assert (Hc2 : exists m, counter (store w2) u = Some m /\ m < INT64_MAX).
  { destruct (counter_elapse _ u (n + 1) dt
                (counter_after_store (store w) u b (n + 1) tc
                   (Entry (String v) (Some CACHE_EXPIRATION)) Hb Hr))
      as [H|H]; eexists; (split; [exact H|]); [exact Hn|reflexivity]. }
  destruct Hc2 as (m & Hm & Hm').
  destruct (wrapper_miss fn' u w2 m b s' v' nt' Hm Hm' Hb Hl Hf' Hs') as [tc' ->].
  subst w2. cbn [fst snd store fetched]. rewrite <- app_assoc.
  split; [reflexivity|]. split; [reflexivity|]. apply lookup_insert_eq.
Qed.

Lemma X12_page_refetched_after_expiry_example :
  fst (wrapper canned Scenario.url
         (sleep 11 (snd (wrapper canned Scenario.url
                           (Scenario.fresh [lit "hello"; lit "world"])))))
    = Ok (lit "world")
  /\ fetched (snd (wrapper canned Scenario.url
                     (sleep 11 (snd (wrapper canned Scenario.url
                                       (Scenario.fresh [lit "hello"; lit "world"]))))))
     = fetched (Scenario.fresh [lit "hello"; lit "world"])
       ++ [Scenario.url; Scenario.url]
  /\ store (snd (wrapper canned Scenario.url
                   (sleep 11 (snd (wrapper canned Scenario.url
                                     (Scenario.fresh [lit "hello"; lit "world"]))))))
       !! Scenario.key
     = Some (Entry (String (lit "world")) (Some CACHE_EXPIRATION)).
Proof.
  apply (X12_page_refetched_after_expiry canned canned Scenario.url
           (Scenario.fresh [lit "hello"; lit "world"]) 0 Scenario.key
           (lit "hello") (lit "world") (lit "hello") (lit "world")
           [lit "world"] [] 11);
    vm_compute; reflexivity.
Defined.

(** ** X13: the counter counts the requests *)

(** X13: over any run of calls, for any URLs and in any order, the counter
    of [u] goes up by the number of calls made for [u], no matter which of
    the calls were hits or misses, which raised, and how many calls for
    other URLs came in between (as long as the counter stays within 64
    bits). *)
Theorem X13_session_counts_requests {Net} (fn : @callable Net)
    (urls : list str) (u : str) (w : world) (n : Z) :
  counter (store w) u = Some n ->
  n + Z.of_nat (length (filter (fun v => v = u) urls)) <= INT64_MAX ->
  counter (store (session fn urls w)) u
  = Some (n + Z.of_nat (length (filter (fun v => v = u) urls))).
Proof.
  revert w n. induction urls as [|v urls IH]; intros w n Hc Hn.
  - cbn. rewrite Z.add_0_r. exact Hc.
  - change (session fn (v :: urls) w)
      with (session fn urls (snd (wrapper fn v w))).
    rewrite filter_cons in Hn |- *. destruct (decide (v = u)) as [->|Hne].
    + cbn [length] in Hn |- *.
      rewrite (IH _ (n + 1)).
      * f_equal. lia.
      * apply counter_same; [exact Hc|lia].
      * lia.
    + apply IH; [|exact Hn].
      rewrite counter_other by congruence. exact Hc.
Qed.

Lemma X13_session_counts_requests_example :
  counter (store (session canned
                    [Scenario.url; lit "http://example.org"; Scenario.url]
                    (Scenario.fresh [lit "hello"])))
          Scenario.url
  = Some (0 + Z.of_nat (length (filter (fun v => v = Scenario.url)
                                  [Scenario.url; lit "http://example.org";
                                   Scenario.url]))).
Proof.
  apply (X13_session_counts_requests canned
           [Scenario.url; lit "http://example.org"; Scenario.url]
           Scenario.url (Scenario.fresh [lit "hello"]) 0).
  - vm_compute. reflexivity.
  - vm_compute. discriminate.
Defined.

(** ** X14: a counter made by a call does not expire *)

(** X14: when the counter key of [u] is not in the server, a call for [u]
    creates it holding ["1"] and without a time to live, whatever else the
    call does; however much time passes afterwards, the counter still
    reads 1. *)
Theorem X14_new_counter_never_expires {Net} (fn : @callable Net) (u : str)
    (w : world) (kc : bytes) (dt : Z) :
  count_key u = Some kc ->
  store w !! kc = None ->
  store (snd (wrapper fn u w)) !! kc = Some (Entry (String (lit "1")) None)
  /\ counter (elapse dt (store (snd (wrapper fn u w)))) u = Some 1.
Proof.
  intros Hk Hv.
  assert (Hs : store (snd (wrapper fn u w)) !! kc
               = Some (Entry (String (lit "1")) None)).
  { pose proof Hk as Hk'. rewrite count_key_encode in Hk'.
    destruct (utf8_encode u) as [b|] eqn:Hb; [|discriminate].
    assert (E : lit "count:" ++ b = kc) by (apply (inj Some); exact Hk').
    subst kc.
    assert (Hi : INCRBY (lit "count:" ++ b) 1 (store w)
                 = inr (1, <[lit "count:" ++ b := Entry (String (lit "1")) None]>
                             (store w)))
      by (unfold INCRBY; rewrite Hv; reflexivity).
    rewrite (wrapper_steps fn u w b _ _ Hb Hi).
    destruct (GET (MD5.hexdigest b) (store w)) as [e|[[|c page]|]];
      try (cbn [snd store]; apply lookup_insert_eq);
      destruct (fn u (net w)) as [[s|e] nt];
      try (cbn [snd store]; apply lookup_insert_eq);
      destruct (utf8_encode s); cbn [snd store];
      rewrite ?(lookup_insert_ne _ (MD5.hexdigest b))
        by apply digest_not_count_name;
      apply lookup_insert_eq. }
  split; [exact Hs|].
  unfold counter. rewrite Hk.
  assert (He : elapse dt (store (snd (wrapper fn u w))) !! kc
               = Some (Entry (String (lit "1")) None)).
  { etrans; [apply elapse_lookup|]. 
    change (store (snd (wrapper fn u w)) !! kc ≫= age dt
            = Some (Entry (String (lit "1")) None)).
    etrans; [exact (f_equal (fun o => o ≫= age dt) Hs)|reflexivity]. }
  etrans; [exact (f_equal (fun o => match o with
                                    | None => Some 0
                                    | Some e => match val e with
                                                | String s => parse_int s
                                                | NonString => None
                                                end
                                    end) He)|reflexivity].
Qed.

Lemma X14_new_counter_never_expires_example :
  store (snd (wrapper canned Scenario.url (Scenario.fresh [])))
    !! lit "count:http://example.com"
  = Some (Entry (String (lit "1")) None)
  /\ counter (elapse 1000000
                (store (snd (wrapper canned Scenario.url (Scenario.fresh [])))))
             Scenario.url
     = Some 1.
Proof.
  apply (X14_new_counter_never_expires canned Scenario.url (Scenario.fresh [])
           (lit "count:http://example.com") 1000000);
    vm_compute; reflexivity.
Defined.

(** ** X15: the strings that have no key *)

(** X15: [sanitize_url] raises [UnicodeEncodeError] on exactly the strings
    that hold a code point which is no Unicode scalar value (a surrogate);
    on every other string it returns a key. *)
Theorem X15_sanitize_url_raises_on_surrogates_only (url : str) :
  sanitize_url url = Raise UnicodeEncodeError <-> forallb scalar url = false.
Proof.
  unfold sanitize_url.
  pose proof (utf8_encode_scalar url) as H.
  destruct (utf8_encode url) as [b|]; destruct (forallb scalar url); split;
    try discriminate; try reflexivity; intros _; exfalso.
  - assert (E : false = true) by (apply H; eauto). discriminate.
  - destruct (proj1 H eq_refl) as [x Hx]. discriminate.
Qed.
